(** * markdown-it-task-lists-ts: the task-list pass over a token stream

    A shallow embedding of [src/markdown-it-task-lists.ts]: the plugin
    function [taskLists], the core rule it registers (three nested index
    loops over the mutable array [state.tokens]), and the module-level
    variables the rule reads when it runs.

    Conventions.
    - A JS string is a [string]; one character stands for one UTF-16 code
      unit.  The source only tests prefixes, drops a fixed number of
      leading units and concatenates.
    - [state.tokens] is a [list Token] updated by index ([<[i:=t]>]); every
      index the loops use is below [tokens.length], so the update is never
      out of range.
    - [Math.random] is an oracle: [rnd n] is the integer that
      [Math.ceil(Math.random() * (10000 * 1000) - 1000)] yields at the
      [n]-th draw; the pass state counts the draws made so far. *)

From Stdlib Require Import String Ascii ZArith Bool Lia.
From Stdlib Require Import DecimalString DecimalZ DecimalPos.
From stdpp Require Import base list.

Local Open Scope string_scope.
#[local] Set Warnings "-register-all,-notation-for-abbreviation".

(** ** JS strings *)

Definition dq : string := String "034"%char EmptyString.

Notation "s +:+ t" := (String.append s t) (at level 60, right associativity).

(** [str.indexOf(pat)]: position of the first occurrence, [-1] if none. *)
Definition indexOf (str pat : string) : Z :=
  match String.index 0 pat str with
  | Some n => Z.of_nat n
  | None => (-1)%Z
  end.

(** [str.includes(sub)], to read results. *)
Definition includes (str sub : string) : bool :=
  match String.index 0 sub str with Some _ => true | None => false end.

(** [str.slice(n)] for [n >= 0]: the string without its first [n] units. *)
Fixpoint slice (n : nat) (s : string) : string :=
  match n, s with
  | O, _ => s
  | S _, EmptyString => EmptyString
  | S n', String _ s' => slice n' s'
  end.

(** A number in a template literal.  The numbers printed here are integers,
    and [-0] prints as [0]. *)
Definition number_to_string (z : Z) : string :=
  NilZero.string_of_int (Z.to_int z).

(** ** Tokens *)

(** The fields of markdown-it's [Token] that the pass reads or writes
    ([map], [level], [markup], [info], [meta], [block], [hidden] are never
    touched).  [attrs] and [children] are [null] or an array. *)
Inductive Token : Type := mkToken {
  type : string;
  tag : string;
  nesting : Z;
  attrs : option (list (string * string));
  content : string;
  children : option (list Token)
}.

(** [new state.Token(type, tag, nesting)] *)
Definition new_Token (ty tg : string) (n : Z) : Token :=
  mkToken ty tg n None EmptyString None.

Definition set_content (t : Token) (c : string) : Token :=
  mkToken (type t) (tag t) (nesting t) (attrs t) c (children t).

Definition set_children (t : Token) (cs : option (list Token)) : Token :=
  mkToken (type t) (tag t) (nesting t) (attrs t) (content t) cs.

Definition set_attrs (t : Token) (a : option (list (string * string))) : Token :=
  mkToken (type t) (tag t) (nesting t) a (content t) (children t).

Module TokenMethods.

Fixpoint find_attr (name : string) (l : list (string * string)) (i : nat)
  : option nat :=
  match l with
  | [] => None
  | (n, _) :: l' => if String.eqb n name then Some i else find_attr name l' (S i)
  end.

(** Modelled from the spec: [attrIndex] is a method of markdown-it's
    [Token], which is imported and not part of this repository; the
    interface [TaskListToken] documents it as the index of the attribute
    by name, or -1 ([None] here) if not found. *)
Definition attrIndex (t : Token) (name : string) : option nat :=
  match attrs t with
  | None => None
  | Some l => find_attr name l 0
  end.

(** Modelled from the spec: [attrPush] is a method of markdown-it's
    [Token]; it adds the attribute at the end, creating the array when
    [attrs] is [null]. *)
Definition attrPush (t : Token) (a : string * string) : Token :=
  match attrs t with
  | None => set_attrs t (Some [a])
  | Some l => set_attrs t (Some (l ++ [a])%list)
  end.

(** Modelled from the spec: [attrJoin] is a method of markdown-it's
    [Token]; neither its declaration nor its body is in this repository.
    The spec's data model words the join as "append value to existing
    value, space-separated", and that is what is modelled: a new attribute
    when the name is absent, otherwise the old value, a space and the new
    value, with no check for a value already present. *)
Definition attrJoin (t : Token) (name value : string) : Token :=
  match attrIndex t name with
  | None => attrPush t (name, value)
  | Some idx =>
      match attrs t with
      | None => t
      | Some l =>
          match l !! idx with
          | None => t
          | Some (n, v) => set_attrs t (Some (<[idx := (n, v +:+ " " +:+ value)]> l))
          end
      end
  end.

(** [token.attrGet(name)], used to read results back. *)
Definition attrGet (t : Token) (name : string) : option string :=
  match attrs t with
  | None => None
  | Some l =>
      match find_attr name l 0 with
      | None => None
      | Some idx => snd <$> l !! idx
      end
  end.

End TokenMethods.
Import TokenMethods.

(** ** Module-level helpers of the source *)

Definition startsWithTodoMarkdown (str : string) : bool :=
  (indexOf str "[ ] " =? 0)%Z || (indexOf str "[x] " =? 0)%Z
  || (indexOf str "[X] " =? 0)%Z.

Definition isListItem (token : Token) : bool :=
  String.eqb (type token) "list_item_open".

Definition isParagraph (token : Token) : bool :=
  String.eqb (type token) "paragraph_open".

Definition isInline (token : Token) : bool :=
  String.eqb (type token) "inline".

Definition hasOpenOrCloseTag (token : Token) (tg : string) : bool :=
  String.eqb (tag token) tg
  && (String.eqb (type token) "paragraph_open"
      || String.eqb (type token) "paragraph_close").

(** ** Options and module-level state *)

(** [TaskListOptions]: every key is optional ([None] is [undefined]).  An
    options object is a JS object and may carry keys the interface does not
    declare (the README's example passes [tiptapCompatible]); they are kept
    in [other_keys].  The source reads the seven declared keys only. *)
Record TaskListOptions : Type := mkOptions {
  enabled : option bool;
  label : option bool;
  labelAfter : option bool;
  listClass : option string;
  itemClass : option string;
  checkboxClass : option string;
  labelClass : option string;
  other_keys : list (string * bool)
}.

(** The object literal [{}]. *)
Definition no_options : TaskListOptions :=
  mkOptions None None None None None None None [].

(** The three [let] variables at module level. *)
Record Globals : Type := mkGlobals {
  disableCheckboxes : bool;
  useLabelWrapper : bool;
  useLabelAfter : bool
}.

(** Their values when the module has just been loaded. *)
Definition module_init : Globals := mkGlobals true true false.

Record Classes : Type := mkClasses {
  list_ : string;
  item : string;
  checkbox : string;
  label_ : string
}.

Definition defaultClasses : Classes :=
  mkClasses "contains-task-list" "task-list-item"
            "task-list-item-checkbox" "task-list-item-label".

(** JS [!v] and [!!v] on a [boolean | undefined], and [v ?? d]. *)
Definition js_not (v : option bool) : bool :=
  match v with Some true => false | _ => true end.

Definition js_truthy (v : option bool) : bool := negb (js_not v).

Definition nullish {A} (v : option A) (d : A) : A :=
  match v with Some x => x | None => d end.

(** ** The core rule [github-task-lists] *)

(** The pass state: [state.tokens] and the number of [Math.random] draws
    made so far. *)
Definition St : Type := (list Token * nat)%type.

Definition type_at (tokens : list Token) (i : nat) : string :=
  match tokens !! i with Some t => type t | None => EmptyString end.

(** [while (current >= 0 && tokens[current].type !== ty) current--], from
    [current = cur]; [None] is the exit with [current = -1]. *)
Fixpoint search_back (ty : string) (tokens : list Token) (cur : nat)
  : option nat :=
  if String.eqb (type_at tokens cur) ty then Some cur
  else match cur with
       | O => None
       | S c => search_back ty tokens c
       end.

(** [tokens[current].attrJoin('class', value)] *)
Definition join_class (tokens : list Token) (current : nat) (value : string)
  : list Token :=
  match tokens !! current with
  | Some t => <[current := attrJoin t "class" value]> tokens
  | None => tokens
  end.

(** The [<input ...>] element of the three templates; [id_attr] is
    [ id="..."] in the two label templates and empty in the third. *)
Definition input_html (cls disabledAttr : string) (checked : bool)
    (id_attr : string) : string :=
  "<input class=" +:+ dq +:+ cls +:+ dq +:+ " " +:+ disabledAttr
  +:+ " type=" +:+ dq +:+ "checkbox" +:+ dq +:+ " "
  +:+ (if checked then "checked=" +:+ dq +:+ dq +:+ " " else EmptyString)
  +:+ id_attr +:+ ">".

Definition task_id (r : Z) : string := "task-item-" +:+ number_to_string r.

Definition id_attr_of (id : string) : string := " id=" +:+ dq +:+ id +:+ dq.

Definition label_html (cls id : string) : string :=
  "<label class=" +:+ dq +:+ cls +:+ dq +:+ " for=" +:+ dq +:+ id +:+ dq +:+ ">".

Definition closeLabel : string := "</label>".

Section Rule.

(** [g]: the module-level variables as they are when the pass runs;
    [classes]: the object the registration built, captured by the rule;
    [rnd]: the random integers of the process. *)
Variable g : Globals.
Variable classes : Classes.
Variable rnd : nat -> Z.

Definition disabledAttr : string :=
  if disableCheckboxes g then " disabled " else EmptyString.

(** [checkbox.content], and the number of draws after computing it. *)
Definition checkbox_content (checked : bool) (draws : nat) : string * nat :=
  if useLabelWrapper g then
    let id := task_id (rnd draws) in
    let lbl := label_html (label_ classes) id in
    let inp := input_html (checkbox classes) disabledAttr checked (id_attr_of id) in
    (if useLabelAfter g then inp +:+ lbl +:+ closeLabel
     else lbl +:+ inp +:+ closeLabel, S draws)
  else
    (input_html (checkbox classes) disabledAttr checked EmptyString, draws).

(** The class propagation: the two backward [while] loops. *)
Definition propagate (tokens : list Token) (k : nat) : list Token :=
  match search_back "list_item_open" tokens k with
  | None => tokens
  | Some current =>
      let tokens1 := join_class tokens current (item classes) in
      match search_back "bullet_list_open" tokens1 current with
      | None => tokens1
      | Some current' => join_class tokens1 current' (list_ classes)
      end
  end.

(** The inline token after lines 229-247: its first child without its
    first three units, the checkbox in front of the children, and its own
    content without its first three units. *)
Definition with_checkbox (token c0 : Token) (cs : list Token) (html : string)
  : Token :=
  let c0' := set_content c0 (slice 3 (content c0)) in
  let checkbox_tok := set_content (new_Token "html_inline" EmptyString 0) html in
  set_content (set_children token (Some (checkbox_tok :: c0' :: cs)))
              (slice 3 (content token)).

Definition is_checked (str : string) : bool :=
  (indexOf str "[x]" =? 0)%Z || (indexOf str "[X]" =? 0)%Z.

(** "Transform the token": the body run when [tokens[k]] is an inline
    token whose content starts with a marker. *)
Definition transform (k : nat) (token : Token) (st : St) : St :=
  let checked := is_checked (content token) in
  match children token with
  | Some (c0 :: cs) =>
      let '(html, draws') := checkbox_content checked (snd st) in
      (propagate (<[k := with_checkbox token c0 cs html]> (fst st)) k, draws')
  | _ => st
  end.

(** [for (let k = ...; k < tokens.length; k++)]; [n] is
    [tokens.length - k]. *)
Fixpoint loop_k (n : nat) (k : nat) (st : St) : St :=
  match n with
  | O => st
  | S n' =>
      match fst st !! k with
      | None => st
      | Some tk =>
          if hasOpenOrCloseTag tk "p" then st
          else if negb (isInline tk) then loop_k n' (S k) st
          else if negb (startsWithTodoMarkdown (content tk)) then loop_k n' (S k) st
          else loop_k n' (S k) (transform k tk st)
      end
  end.

(** [for (let j = ...; j < tokens.length; j++)]; [n] is
    [tokens.length - j]. *)
Fixpoint loop_j (n : nat) (j : nat) (st : St) : St :=
  match n with
  | O => st
  | S n' =>
      match fst st !! j with
      | None => st
      | Some tj =>
          if String.eqb (type tj) "list_item_close" then st
          else if negb (isParagraph tj) then loop_j n' (S j) st
          else loop_j n' (S j) (loop_k n' (S j) st)
      end
  end.

(** [for (let i = ...; i < tokens.length; i++)]; [n] is
    [tokens.length - i]. *)
Fixpoint loop_i (n : nat) (i : nat) (insideList : bool) (st : St) : St :=
  match n with
  | O => st
  | S n' =>
      match fst st !! i with
      | None => st
      | Some ti =>
          if String.eqb (type ti) "bullet_list_open" then loop_i n' (S i) true st
          else if String.eqb (type ti) "bullet_list_close" then loop_i n' (S i) false st
          else if negb insideList then loop_i n' (S i) insideList st
          else if negb (isListItem ti) then loop_i n' (S i) insideList st
          else loop_i n' (S i) insideList (loop_j n' (S i) st)
      end
  end.

(** The rule on [state.tokens], from [draws] earlier draws. *)
Definition rule (tokens : list Token) (draws : nat) : St :=
  loop_i (length tokens) 0 false (tokens, draws).

End Rule.

(** ** Registration *)

(** A parser instance, as far as this plugin sees it: the closures that
    [md.core.ruler.after('inline', 'github-task-lists', ...)] has added,
    in the order the chain runs them ([after] puts a rule right behind
    [inline], so before the ones added earlier).  A closure is its captured
    [classes]. *)
Definition MarkdownIt : Type := list Classes.

Definition new_MarkdownIt : MarkdownIt := [].

(** [taskLists(md, options)]: it writes the module-level variables and
    registers the rule. *)
Definition taskLists (md : MarkdownIt) (options : option TaskListOptions)
    (g : Globals) : Globals * MarkdownIt :=
  let g' :=
    match options with
    | Some o => mkGlobals (js_not (enabled o)) (js_truthy (label o))
                          (js_truthy (labelAfter o))
    | None => g
    end in
  let classes :=
    match options with
    | Some o => mkClasses (nullish (listClass o) (list_ defaultClasses))
                          (nullish (itemClass o) (item defaultClasses))
                          (nullish (checkboxClass o) (checkbox defaultClasses))
                          (nullish (labelClass o) (label_ defaultClasses))
    | None => defaultClasses
    end in
  (g', classes :: md).

(** The task-list rules of [md] run over the tokens of one document, with
    the module-level variables at [g]. *)
Definition run_rules (md : MarkdownIt) (g : Globals) (rnd : nat -> Z)
    (st : St) : St :=
  fold_left (fun s cls => rule g cls rnd (fst s) (snd s)) md st.

(** ** Documents *)

Definition tok (ty tg : string) (n : Z) : Token := new_Token ty tg n.

Definition bullet_list_open : Token := tok "bullet_list_open" "ul" 1.
Definition bullet_list_close : Token := tok "bullet_list_close" "ul" (-1).
Definition list_item_open : Token := tok "list_item_open" "li" 1.
Definition list_item_close : Token := tok "list_item_close" "li" (-1).
Definition paragraph_open : Token := tok "paragraph_open" "p" 1.
Definition paragraph_close : Token := tok "paragraph_close" "p" (-1).

Definition text (s : string) : Token :=
  set_content (tok "text" EmptyString 0) s.

(** The inline token of a paragraph of plain text. *)
Definition inline (s : string) : Token :=
  mkToken "inline" EmptyString 0 None s (Some [text s]).

(** [- [ ] A] and [- [x] B] in one list. *)
Definition doc_two_items : list Token :=
  [ bullet_list_open;
    list_item_open; paragraph_open; inline "[ ] A"; paragraph_close; list_item_close;
    list_item_open; paragraph_open; inline "[x] B"; paragraph_close; list_item_close;
    bullet_list_close ].

(** [- [ ] A], with the sublist [- [ ] C] inside, then [- [x] B]. *)
Definition doc_nested : list Token :=
  [ bullet_list_open;
    list_item_open; paragraph_open; inline "[ ] A"; paragraph_close;
      bullet_list_open;
      list_item_open; paragraph_open; inline "[ ] C"; paragraph_close; list_item_close;
      bullet_list_close;
    list_item_close;
    list_item_open; paragraph_open; inline "[x] B"; paragraph_close; list_item_close;
    bullet_list_close ].

(** One item of two paragraphs: [- [ ] A], a blank line, and [[x] B]
    indented under it. *)
Definition doc_two_paragraphs : list Token :=
  [ bullet_list_open;
    list_item_open;
      paragraph_open; inline "[ ] A"; paragraph_close;
      paragraph_open; inline "[x] B"; paragraph_close;
    list_item_close;
    bullet_list_close ].

(** [{ enabled: true, label: true }] and [{ enabled: false, label: true }] *)
Definition options_enabled : TaskListOptions :=
  mkOptions (Some true) (Some true) None None None None None [].

Definition options_disabled : TaskListOptions :=
  mkOptions (Some false) (Some true) None None None None None [].

(** The README's [{ enabled: true, label: true, tiptapCompatible: true }] *)
Definition options_tiptap : TaskListOptions :=
  mkOptions (Some true) (Some true) None None None None None
            [("tiptapCompatible", true)].

(** [tokens[k].children[n]] *)
Definition child (tokens : list Token) (k n : nat) : option Token :=
  match tokens !! k with
  | Some t => match children t with Some cs => cs !! n | None => None end
  | None => None
  end.

(** [{ enabled: true, label: true, labelAfter: true }] *)
Definition options_label_after : TaskListOptions :=
  mkOptions (Some true) (Some true) (Some true) None None None None [].

(** [tokens[k].children[n].content] *)
Definition child_content (tokens : list Token) (k n : nat) : option string :=
  content <$> child tokens k n.

(** [tokens[k].children[n].content.includes(sub)] *)
Definition child_includes (tokens : list Token) (k n : nat) (sub : string)
  : bool :=
  match child tokens k n with
  | Some c => includes (content c) sub
  | None => false
  end.

(** [tokens[k].attrGet(name)] *)
Definition attr_at (tokens : list Token) (k : nat) (name : string)
  : option string :=
  match tokens !! k with Some t => attrGet t name | None => None end.

(** [md.use(taskLists, options)] on a fresh parser, then one document run
    through the rules of that parser while the module-level variables are
    [g_run]. *)
Definition use_fresh (options : option TaskListOptions) (g : Globals)
  : Globals * MarkdownIt :=
  taskLists new_MarkdownIt options g.

Definition render (md : MarkdownIt) (g_run : Globals) (rnd : nat -> Z)
    (tokens : list Token) : list Token :=
  fst (run_rules md g_run rnd (tokens, 0)).

(** Consecutive draws: the [n]-th checkbox of the process gets [n]. *)
Definition rnd_count : nat -> Z := Z.of_nat.

(** Two draws of [Math.random] that differ and round to the same integer,
    such as 0.50000001 and 0.50000002. *)
Definition rnd_collide : nat -> Z := fun _ => 4999001%Z.

(** ** What the scan examines, read off the token types *)

Definition is_type (ty : string) (t : Token) : bool := String.eqb (type t) ty.

Definition not_type (ty : string) (t : Token) : bool := negb (is_type ty t).

(** The test that ends the [k] loop. *)
Definition not_boundary (t : Token) : bool := negb (hasOpenOrCloseTag t "p").

(** The tokens at the indices strictly between [a] and [b]. *)
Definition between (tokens : list Token) (a b : nat) : list Token :=
  take (b - a - 1) (drop (S a) tokens).

Definition flag_step (b : bool) (t : Token) : bool :=
  if String.eqb (type t) "bullet_list_open" then true
  else if String.eqb (type t) "bullet_list_close" then false
  else b.

(** The value of [insideList] when the [i] loop tests index [i]: whether
    the last list-container token before [i] is an open one. *)
Definition insideList_at (tokens : list Token) (i : nat) : bool :=
  fold_left flag_step (take i tokens) false.

(** The [i] loop hands item [i] to the [j] loop, which gets to [j] without
    meeting a [list_item_close]. *)
Definition item_reaches (tokens : list Token) (i j : nat) : bool :=
  Nat.ltb i j && insideList_at tokens i
  && String.eqb (type_at tokens i) "list_item_open"
  && forallb (not_type "list_item_close") (between tokens i j).

(** ... [j] is a paragraph open, and the [k] loop started there gets to [k]
    without meeting a [p] open or close. *)
Definition examined_from (tokens : list Token) (i j k : nat) : bool :=
  item_reaches tokens i j
  && String.eqb (type_at tokens j) "paragraph_open"
  && Nat.ltb j k && forallb not_boundary (between tokens j k).

Definition examined (tokens : list Token) (k : nat) : Prop :=
  exists i j, examined_from tokens i j k = true.

(** The list item at [c] is the nearest one before the examined inline
    token at [k]. *)
Definition nearest_item (tokens : list Token) (c k : nat) : Prop :=
  c < k /\ type_at tokens k = "inline" /\ examined tokens k /\
  forall x, c < x <= k -> type_at tokens x <> "list_item_open".

(** [n] times [attrJoin('class', v)]. *)
Definition joined (v : string) (n : nat) (t : Token) : Token :=
  Nat.iter n (fun t' => attrJoin t' "class" v) t.

Section Evolution.

Variable g : Globals.
Variable classes : Classes.
Variable rnd : nat -> Z.
Variable tokens0 : list Token.

(** How the token at index [k] can differ from the one the pass
    started with. *)
Inductive evolved (k : nat) (t0 t : Token) : Prop :=
| ev_same : t = t0 -> evolved k t0 t
| ev_item (n : nat) :
    type t0 = "list_item_open" -> t = joined (item classes) n t0 ->
    (n <> 0 -> exists k', nearest_item tokens0 k k') ->
    evolved k t0 t
| ev_list (n : nat) :
    type t0 = "bullet_list_open" -> t = joined (list_ classes) n t0 ->
    evolved k t0 t
| ev_checkbox (c0 : Token) (cs : list Token) (d : nat) :
    type t0 = "inline" ->
    startsWithTodoMarkdown (content t0) = true ->
    children t0 = Some (c0 :: cs) ->
    examined tokens0 k ->
    t = with_checkbox t0 c0 cs
          (fst (checkbox_content g classes rnd (is_checked (content t0)) d)) ->
    evolved k t0 t.

Definition Inv (st : St) : Prop :=
  length (fst st) = length tokens0 /\
  forall k t0 t, tokens0 !! k = Some t0 -> fst st !! k = Some t -> evolved k t0 t.

(** The token at [k] carries its checkbox. *)
Definition done_at (k : nat) (st : St) : Prop :=
  exists t0 c0 cs d,
    tokens0 !! k = Some t0 /\ type t0 = "inline" /\
    startsWithTodoMarkdown (content t0) = true /\
    children t0 = Some (c0 :: cs) /\
    fst st !! k =
      Some (with_checkbox t0 c0 cs
              (fst (checkbox_content g classes rnd (is_checked (content t0)) d))).

Definition Done (k : nat) (st : St) : Prop := Inv st /\ done_at k st.

End Evolution.

(** [1. [ ] A]: a task marker in an ordered list. *)
Definition doc_ordered : list Token :=
  [ tok "ordered_list_open" "ol" 1;
    list_item_open; paragraph_open; inline "[ ] A"; paragraph_close; list_item_close;
    tok "ordered_list_close" "ol" (-1) ].

(** ** Notions for the properties of the whole pass *)

(** An inline token that starts with a marker and has a child: the tokens
    the innermost loop transforms when it gets to them. *)
Definition marked (t : Token) : bool :=
  isInline t && startsWithTodoMarkdown (content t)
  && match children t with Some (_ :: _) => true | _ => false end.

Definition candidate (tokens : list Token) (k : nat) : Prop :=
  exists t, tokens !! k = Some t /\ marked t = true /\ examined tokens k.

(** The loops branch on the type and the tag of a token only. *)
Definition same_shape (t1 t2 : Token) : Prop :=
  type t1 = type t2 /\ tag t1 = tag t2.

(** The children of the token at [k] are not the ones it had in [tokens0]:
    it got a checkbox. *)
Definition changed_at (tokens0 tokens : list Token) (k : nat) : Prop :=
  exists t0 t, tokens0 !! k = Some t0 /\ tokens !! k = Some t /\
               children t <> children t0.

(** The two label templates, for a given identifier. *)
Definition labelled_html (g : Globals) (classes : Classes) (checked : bool)
    (id : string) : string :=
  let lbl := label_html (label_ classes) id in
  let inp := input_html (checkbox classes) (disabledAttr g) checked (id_attr_of id) in
  if useLabelAfter g then inp +:+ lbl +:+ closeLabel
  else lbl +:+ inp +:+ closeLabel.

(** [f] tells for each checkbox in the tokens of [st] which draw made its
    identifier: the draws from [d0] up to the count of [st], each used by
    one checkbox. *)
Definition drawn (g : Globals) (classes : Classes) (rnd : nat -> Z)
    (tokens0 : list Token) (d0 : nat) (st : St) (f : nat -> nat) : Prop :=
  d0 <= snd st /\
  (forall k t0 t,
     tokens0 !! k = Some t0 -> fst st !! k = Some t ->
     children t <> children t0 ->
     d0 <= f k < snd st /\
     exists c0 cs,
       children t0 = Some (c0 :: cs) /\
       t = with_checkbox t0 c0 cs
             (fst (checkbox_content g classes rnd (is_checked (content t0)) (f k)))) /\
  (forall k1 k2,
     changed_at tokens0 (fst st) k1 -> changed_at tokens0 (fst st) k2 ->
     f k1 = f k2 -> k1 = k2) /\
  (forall n, d0 <= n < snd st ->
     exists k, changed_at tokens0 (fst st) k /\ f k = n).

Definition Fresh (g : Globals) (classes : Classes) (rnd : nat -> Z)
    (tokens0 : list Token) (d0 : nat) (st : St) : Prop :=
  Inv g classes rnd tokens0 st /\ exists f, drawn g classes rnd tokens0 d0 st f.

(** The token at [c] is the one of [tokens0] after at least one
    [attrJoin('class', v)]. *)
Definition classed (v : string) (tokens0 tokens : list Token) (c : nat) : Prop :=
  exists t0 n, tokens0 !! c = Some t0 /\ tokens !! c = Some (joined v (S n) t0).

(** Every checkbox has its list item and its list classed: the nearest
    [list_item_open] before the checkbox and the nearest
    [bullet_list_open] before that. *)
Definition ancestors_classed (classes : Classes) (tokens0 tokens : list Token)
    (k : nat) : Prop :=
  exists c b,
    search_back "list_item_open" tokens0 k = Some c /\
    search_back "bullet_list_open" tokens0 c = Some b /\
    classed (item classes) tokens0 tokens c /\
    classed (list_ classes) tokens0 tokens b.

Definition Classed (g : Globals) (classes : Classes) (rnd : nat -> Z)
    (tokens0 : list Token) (st : St) : Prop :=
  Inv g classes rnd tokens0 st /\
  forall k, changed_at tokens0 (fst st) k ->
            ancestors_classed classes tokens0 (fst st) k.

(** Pieces of markup to look for in a checkbox. *)
Definition type_checkbox : string := " type=" +:+ dq +:+ "checkbox" +:+ dq.

Definition class_attr (cls : string) : string := "class=" +:+ dq +:+ cls +:+ dq.

(** ** Looking for a word in the markup *)

(** No unit of [s] is [x]. *)
Fixpoint no_char (x : ascii) (s : string) : bool :=
  match s with
  | EmptyString => true
  | String c s' => negb (Ascii.eqb c x) && no_char x s'
  end.

(** The strings of [l] with the unit [x] between them. *)
Fixpoint sep_join (x : ascii) (l : list string) : string :=
  match l with
  | [] => EmptyString
  | a :: l' =>
      match l' with
      | [] => a
      | _ :: _ => a +:+ String x (sep_join x l')
      end
  end.

(** The double quote, as a unit. *)
Definition quote : ascii := "034"%char.

(** Class names are put into the templates as they are: a checkbox class
    that closes its attribute and opens the next one. *)
Definition classes_injected : Classes :=
  mkClasses "contains-task-list" "task-list-item"
            ("x" +:+ dq +:+ " checked=" +:+ dq) "task-list-item-label".

(** An oracle that walks through the integers
    [Math.ceil(Math.random() * (10000 * 1000) - 1000)] can give, from
    [-1000] to [9999000]. *)
Definition rnd_cycle (n : nat) : Z := (Z.of_nat n mod 10000001 - 1000)%Z.

(** * Properties *)

(** ** Strings *)

Lemma indexOf_zero_prefix (s p : string) :
  (indexOf s p =? 0)%Z = String.prefix p s.
Proof.
  unfold indexOf. destruct s as [|b s'].
  - destruct p; reflexivity.
  - cbn [String.index]. destruct (String.prefix p (String b s')); [reflexivity|].
    destruct (String.index 0 p s'); [|reflexivity].
    apply Z.eqb_neq; lia.
Qed.

Lemma prefix_true_append (p s : string) :
  String.prefix p s = true <-> exists r, s = p +:+ r.
Proof.
  revert s. induction p as [|a p IH]; intros s.
  - split; [intros _; exists s; reflexivity | intros _; destruct s; reflexivity].
  - destruct s as [|b s]; cbn.
    + split; [discriminate | intros [r Hr]; discriminate].
    + destruct (ascii_dec a b) as [ -> | Hab].
      * rewrite IH. split; intros [r Hr]; exists r; [now rewrite Hr | now inversion Hr].
      * split; [discriminate | intros [r Hr]; inversion Hr; congruence].
Qed.

Lemma prefix_append_same (p r : string) : String.prefix p (p +:+ r) = true.
Proof. apply prefix_true_append. now exists r. Qed.

(** The three markers, as a statement about the string. *)
Lemma startsWithTodoMarkdown_spec (s : string) :
  startsWithTodoMarkdown s = true <->
  exists r, s = "[ ] " +:+ r \/ s = "[x] " +:+ r \/ s = "[X] " +:+ r.
Proof.
  unfold startsWithTodoMarkdown. rewrite !indexOf_zero_prefix, !orb_true_iff.
  rewrite !prefix_true_append. split.
  - intros [[[r H]|[r H]]|[r H]]; exists r; tauto.
  - intros [r [H|[H|H]]]; [left; left|left; right|right]; now exists r.
Qed.

(** What is left after [slice(3)] starts with the space of the marker and
    is no marker again. *)
Lemma slice3_no_marker (s : string) :
  startsWithTodoMarkdown s = true -> startsWithTodoMarkdown (slice 3 s) = false.
Proof.
  intros H. apply startsWithTodoMarkdown_spec in H.
  destruct H as [r [ -> | [ -> | -> ] ] ]; cbn [String.append slice];
    unfold startsWithTodoMarkdown; rewrite !indexOf_zero_prefix; reflexivity.
Qed.

Lemma is_checked_marker (r : string) :
  is_checked ("[ ] " +:+ r) = false /\
  is_checked ("[x] " +:+ r) = true /\
  is_checked ("[X] " +:+ r) = true.
Proof.
  unfold is_checked. rewrite !indexOf_zero_prefix. repeat split; reflexivity.
Qed.

(** ** Token methods keep the frame of a token *)

Lemma attrJoin_frame (t : Token) (name value : string) :
  type (attrJoin t name value) = type t /\
  tag (attrJoin t name value) = tag t /\
  nesting (attrJoin t name value) = nesting t /\
  content (attrJoin t name value) = content t /\
  children (attrJoin t name value) = children t.
Proof.
  unfold attrJoin, attrPush.
  destruct (attrIndex t name) as [idx|].
  - destruct (attrs t) as [l|]; [|tauto].
    destruct (l !! idx) as [[n v]|]; cbn; tauto.
  - destruct (attrs t); cbn; tauto.
Qed.

Lemma joined_S (v : string) (n : nat) (t : Token) :
  joined v (S n) t = attrJoin (joined v n t) "class" v.
Proof. reflexivity. Qed.

Lemma joined_frame (v : string) (n : nat) (t : Token) :
  type (joined v n t) = type t /\
  tag (joined v n t) = tag t /\
  nesting (joined v n t) = nesting t /\
  content (joined v n t) = content t /\
  children (joined v n t) = children t.
Proof.
  induction n as [|n IH]; [cbn; tauto|].
  rewrite joined_S.
  destruct (attrJoin_frame (joined v n t) "class" v) as (?&?&?&?&?).
  intuition congruence.
Qed.

Lemma with_checkbox_frame (t c0 : Token) (cs : list Token) (html : string) :
  type (with_checkbox t c0 cs html) = type t /\
  tag (with_checkbox t c0 cs html) = tag t /\
  nesting (with_checkbox t c0 cs html) = nesting t /\
  attrs (with_checkbox t c0 cs html) = attrs t /\
  content (with_checkbox t c0 cs html) = slice 3 (content t).
Proof. cbn. tauto. Qed.

Lemma evolved_frame g classes rnd tokens0 k t0 t :
  evolved g classes rnd tokens0 k t0 t ->
  type t = type t0 /\ tag t = tag t0 /\ nesting t = nesting t0.
Proof.
    intros [->|n _ -> _|n _ ->|c0 cs d _ _ _ _ ->].
  - tauto.
  - destruct (joined_frame (item classes) n t0); tauto.
  - destruct (joined_frame (list_ classes) n t0); tauto.
  - cbn. tauto.
Qed.

(** ** The backward searches and the class joins *)

Lemma search_back_spec (ty : string) (tokens : list Token) (cur c : nat) :
  search_back ty tokens cur = Some c ->
  c <= cur /\ type_at tokens c = ty /\
  forall x, c < x <= cur -> type_at tokens x <> ty.
Proof.
  induction cur as [|cur IH]; cbn [search_back].
  - destruct (String.eqb_spec (type_at tokens 0) ty); [|discriminate].
    intros [= <-]. repeat split; [lia|assumption|]. intros x Hx. lia.
  - destruct (String.eqb_spec (type_at tokens (S cur)) ty).
    + intros [= <-]. repeat split; [lia|assumption|]. intros x Hx. lia.
    + intros H. destruct (IH H) as (Hle & Hty & Hno).
      repeat split; [lia|assumption|].
      intros x Hx. destruct (decide (x = S cur)) as [->|]; [assumption|].
      apply Hno. lia.
Qed.

Lemma type_at_lookup (tokens : list Token) (m : nat) (t : Token) :
  tokens !! m = Some t -> type_at tokens m = type t.
Proof. unfold type_at. now intros ->. Qed.

Lemma join_class_length (tokens : list Token) (c : nat) (v : string) :
  length (join_class tokens c v) = length tokens.
Proof. unfold join_class. destruct (tokens !! c); [apply length_insert|reflexivity]. Qed.

Lemma join_class_lookup_other (tokens : list Token) (c m : nat) (v : string)
    (t : Token) :
  tokens !! m = Some t -> type_at tokens c <> type t ->
  join_class tokens c v !! m = Some t.
Proof.
  intros Hm Hty. unfold join_class.
  destruct (tokens !! c) as [tc|] eqn:Hc; [|assumption].
  rewrite list_lookup_insert_ne; [assumption|].
  intros ->. apply Hty. now rewrite (type_at_lookup _ _ _ Hm).
Qed.

Section Propagate.

Variable classes : Classes.

Lemma propagate_length (tokens : list Token) (k : nat) :
  length (propagate classes tokens k) = length tokens.
Proof.
  unfold propagate.
  destruct (search_back "list_item_open" tokens k); [|reflexivity].
  destruct (search_back "bullet_list_open" _ _);
    now rewrite ?join_class_length.
Qed.

(** The joins go to a list item and a list container only. *)
Lemma propagate_lookup_other (tokens : list Token) (k m : nat) (t : Token) :
  tokens !! m = Some t ->
  type t <> "list_item_open" -> type t <> "bullet_list_open" ->
  propagate classes tokens k !! m = Some t.
Proof.
  intros Hm Hi Hl. unfold propagate.
  destruct (search_back "list_item_open" tokens k) as [c|] eqn:Hc; [|assumption].
    apply search_back_spec in Hc as (_ & Hc & _).
  assert (H1 : join_class tokens c (item classes) !! m = Some t)
    by (apply join_class_lookup_other; congruence).
  destruct (search_back "bullet_list_open" _ c) as [c'|] eqn:Hc'; [|assumption].
  apply search_back_spec in Hc' as (_ & Hc' & _).
  apply join_class_lookup_other; congruence.
Qed.

End Propagate.

(** ** The invariant of the pass *)

Section Invariant.

Variable g : Globals.
Variable classes : Classes.
Variable rnd : nat -> Z.
Variable tokens0 : list Token.

Local Notation Inv := (Inv g classes rnd tokens0).
Local Notation evolved := (evolved g classes rnd tokens0).
Local Notation body := (transform g classes rnd).

Lemma Inv_init (d : nat) : Inv (tokens0, d).
Proof.
  split; [reflexivity|]. cbn. intros k t0 t H0 H. apply ev_same. congruence.
Qed.

Lemma Inv_lookup (st : St) (k : nat) (t : Token) :
  Inv st -> fst st !! k = Some t ->
  exists t0, tokens0 !! k = Some t0 /\ evolved k t0 t.
Proof.
  intros [Hlen Hev] Hk.
  destruct (tokens0 !! k) as [t0|] eqn:H0.
  - exists t0. split; [reflexivity|]. now apply Hev.
  - apply lookup_ge_None in H0. apply lookup_lt_Some in Hk. lia.
Qed.

Lemma Inv_lookup0 (st : St) (k : nat) (t0 : Token) :
  Inv st -> tokens0 !! k = Some t0 ->
  exists t, fst st !! k = Some t /\ evolved k t0 t.
Proof.
  intros [Hlen Hev] H0.
  destruct (fst st !! k) as [t|] eqn:Hk.
  - exists t. split; [reflexivity|]. now apply Hev.
  - apply lookup_ge_None in Hk. apply lookup_lt_Some in H0. lia.
Qed.

Lemma Inv_type_at (st : St) (k : nat) :
  Inv st -> type_at (fst st) k = type_at tokens0 k.
Proof.
  intros HI. unfold type_at at 1.
  destruct (fst st !! k) as [t|] eqn:Hk.
  - destruct (Inv_lookup _ _ _ HI Hk) as (t0 & H0 & Hev).
    rewrite (type_at_lookup _ _ _ H0). now apply evolved_frame in Hev.
  - unfold type_at. destruct HI as [Hlen _].
    apply lookup_ge_None in Hk. rewrite Hlen in Hk.
    apply lookup_ge_None in Hk. now rewrite Hk.
Qed.

Lemma Inv_insert (tokens : list Token) (d d' k : nat) (t0 t' : Token) :
  Inv (tokens, d) -> tokens0 !! k = Some t0 -> evolved k t0 t' ->
  Inv (<[k := t']> tokens, d').
Proof.
  intros [Hlen Hev] H0 He. split; cbn in *.
  - now rewrite length_insert.
  - intros m u0 u Hu0 Hu. destruct (decide (m = k)) as [->|Hne].
    + rewrite list_lookup_insert_eq in Hu
        by (rewrite Hlen; eapply lookup_lt_Some; eassumption).
      congruence.
    + rewrite list_lookup_insert_ne in Hu by congruence. now apply Hev.
Qed.

Lemma Inv_join_item (tokens : list Token) (d c k : nat) :
  Inv (tokens, d) -> type_at tokens c = "list_item_open" ->
  nearest_item tokens0 c k ->
  Inv (join_class tokens c (item classes), d).
Proof.
  intros HI Hty Hnear. unfold join_class.
  destruct (tokens !! c) as [t|] eqn:Hc; [|assumption].
  destruct (Inv_lookup _ _ _ HI Hc) as (t0 & H0 & Hev).
  rewrite (type_at_lookup _ _ _ Hc) in Hty.
  pose proof (evolved_frame _ _ _ _ _ _ _ Hev) as (Hf & _).
  eapply Inv_insert; [eassumption..|].
  destruct Hev as [->|n H1 -> _|n H1 ->|c0 cs d0 H1 _ _ _ ->].
  - apply (ev_item _ _ _ _ _ _ _ 1); [assumption|reflexivity|eauto].
  - apply (ev_item _ _ _ _ _ _ _ (S n)); [assumption|reflexivity|eauto].
  - congruence.
  - congruence.
Qed.

Lemma Inv_join_list (tokens : list Token) (d c : nat) :
  Inv (tokens, d) -> type_at tokens c = "bullet_list_open" ->
  Inv (join_class tokens c (list_ classes), d).
Proof.
  intros HI Hty. unfold join_class.
  destruct (tokens !! c) as [t|] eqn:Hc; [|assumption].
  destruct (Inv_lookup _ _ _ HI Hc) as (t0 & H0 & Hev).
  rewrite (type_at_lookup _ _ _ Hc) in Hty.
  pose proof (evolved_frame _ _ _ _ _ _ _ Hev) as (Hf & _).
  eapply Inv_insert; [eassumption..|].
    destruct Hev as [->|n H1 -> _|n H1 ->|c0 cs d0 H1 _ _ _ ->].
  - now apply (ev_list _ _ _ _ _ _ _ 1).
  - congruence.
  - apply (ev_list _ _ _ _ _ _ _ (S n)); [assumption|reflexivity].
  - congruence.
Qed.

Lemma Inv_propagate (tokens : list Token) (d k : nat) :
  Inv (tokens, d) -> type_at tokens0 k = "inline" -> examined tokens0 k ->
  Inv (propagate classes tokens k, d).
Proof.
  intros HI Hk Hex. unfold propagate.
  destruct (search_back "list_item_open" tokens k) as [c|] eqn:Hc; [|assumption].
  apply search_back_spec in Hc as (Hle & Hc & Hno).
  assert (Hty : forall x, type_at tokens x = type_at tokens0 x)
    by (intros x; apply (Inv_type_at (tokens, d)); assumption).
  assert (Hnear : nearest_item tokens0 c k).
  { repeat split; try assumption.
    - destruct (decide (c = k)) as [->|]; [|lia].
      rewrite Hty, Hk in Hc. discriminate.
    - intros x Hx. rewrite <- Hty. now apply Hno. }
  pose proof (Inv_join_item _ _ _ _ HI Hc Hnear) as HI1.
  destruct (search_back "bullet_list_open" _ c) as [c'|] eqn:Hc'; [|assumption].
  apply search_back_spec in Hc' as (_ & Hc' & _).
  now apply Inv_join_list.
Qed.

Lemma Inv_draws (tokens : list Token) (d d' : nat) :
  Inv (tokens, d) -> Inv (tokens, d').
Proof. intros [? ?]; split; assumption. Qed.

(** The body of the innermost loop keeps the invariant. *)
Lemma Inv_transform (st : St) (k : nat) (tk : Token) :
  Inv st -> fst st !! k = Some tk -> isInline tk = true ->
  startsWithTodoMarkdown (content tk) = true -> examined tokens0 k ->
  Inv (body k tk st).
Proof.
  intros HI Hk Hin Hm Hex. unfold transform.
  destruct (children tk) as [[|c0 cs]|] eqn:Hch; try assumption.
  destruct (checkbox_content _ _ _ _ _) as [html d'] eqn:Hcb.
  destruct st as [tokens d]. cbn [fst snd] in *.
    destruct (Inv_lookup _ _ _ HI Hk) as (t0 & H0 & Hev).
  apply String.eqb_eq in Hin.
  apply Inv_propagate;
    [|rewrite (type_at_lookup _ _ _ H0); apply evolved_frame in Hev;
      intuition congruence|assumption].
  eapply Inv_insert; [eassumption..|].
  destruct Hev as [->|n H1 -> _|n H1 ->|c1 cs1 d0 H1 H2 _ _ ->].
  - eapply ev_checkbox; try eassumption. now rewrite Hcb.
  - destruct (joined_frame (item classes) n t0) as (E & _). congruence.
  - destruct (joined_frame (list_ classes) n t0) as (E & _). congruence.
  - cbn [with_checkbox content set_content set_children] in Hm.
    apply slice3_no_marker in H2. congruence.
Qed.

End Invariant.

(** ** The scan conditions, step by step *)

Lemma between_nil (tokens : list Token) (a : nat) : between tokens a (S a) = [].
Proof. unfold between. now replace (S a - a - 1) with 0 by lia. Qed.

Lemma between_snoc (tokens : list Token) (a b : nat) (t : Token) :
  a < b -> tokens !! b = Some t ->
  between tokens a (S b) = (between tokens a b ++ [t])%list.
Proof.
  intros Hab Hb. unfold between.
  replace (S b - a - 1) with (S (b - a - 1)) by lia.
  erewrite take_S_r; [reflexivity|].
  rewrite lookup_drop. now replace (S a + (b - a - 1)) with b by lia.
Qed.

Lemma between_lookup (tokens : list Token) (a b m : nat) (t : Token) :
  a < m < b -> tokens !! m = Some t -> In t (between tokens a b).
Proof.
  intros Hm Ht. unfold between. apply list_elem_of_In.
  apply (list_elem_of_lookup_2 _ (m - a - 1)).
  rewrite lookup_take_lt by lia. rewrite lookup_drop.
  now replace (S a + (m - a - 1)) with m by lia.
Qed.

Lemma insideList_at_S (tokens : list Token) (i : nat) (t : Token) :
  tokens !! i = Some t ->
  insideList_at tokens (S i) = flag_step (insideList_at tokens i) t.
Proof.
  intros Hi. unfold insideList_at. erewrite take_S_r by eassumption.
  now rewrite fold_left_app.
Qed.

Lemma item_reaches_start (tokens : list Token) (i : nat) :
  insideList_at tokens i = true -> type_at tokens i = "list_item_open" ->
  item_reaches tokens i (S i) = true.
Proof.
  intros Hin Hty. unfold item_reaches. rewrite Hin, Hty, between_nil.
  now rewrite (proj2 (Nat.ltb_lt i (S i))) by lia.
Qed.

Lemma item_reaches_S (tokens : list Token) (i j : nat) (t : Token) :
  item_reaches tokens i j = true -> tokens !! j = Some t ->
  String.eqb (type t) "list_item_close" = false ->
  item_reaches tokens i (S j) = true.
Proof.
  unfold item_reaches. rewrite !andb_true_iff, !Nat.ltb_lt.
  intros [[[Hij Hin] Hty] Hbt] Hj Hnc.
  rewrite (between_snoc _ _ _ _ Hij Hj), forallb_app, Hbt. cbn.
  unfold not_type, is_type. rewrite Hnc. repeat split; auto; lia.
Qed.

Lemma examined_from_start (tokens : list Token) (i j : nat) :
  item_reaches tokens i j = true -> type_at tokens j = "paragraph_open" ->
  examined_from tokens i j (S j) = true.
Proof.
  intros Hr Hty. unfold examined_from. rewrite Hr, Hty, between_nil.
  now rewrite (proj2 (Nat.ltb_lt j (S j))) by lia.
Qed.

Lemma examined_from_S (tokens : list Token) (i j k : nat) (t : Token) :
  examined_from tokens i j k = true -> tokens !! k = Some t ->
  hasOpenOrCloseTag t "p" = false ->
  examined_from tokens i j (S k) = true.
Proof.
  unfold examined_from. rewrite !andb_true_iff, !Nat.ltb_lt.
  intros [[[Hr Hty] Hjk] Hbt] Hk Hnb.
  rewrite (between_snoc _ _ _ _ Hjk Hk), forallb_app, Hbt. cbn.
  unfold not_boundary. rewrite Hnb. repeat split; auto; lia.
Qed.

Lemma hasOpenOrCloseTag_frame (t t0 : Token) (tg : string) :
  type t = type t0 -> tag t = tag t0 ->
  hasOpenOrCloseTag t tg = hasOpenOrCloseTag t0 tg.
Proof. unfold hasOpenOrCloseTag. now intros -> ->. Qed.

Lemma examined_from_parts (tokens : list Token) (i j k : nat) :
  examined_from tokens i j k = true ->
  i < j /\ j < k /\
  insideList_at tokens i = true /\
  type_at tokens i = "list_item_open" /\
  type_at tokens j = "paragraph_open" /\
  item_reaches tokens i j = true /\
  (forall m t, i < m < j -> tokens !! m = Some t ->
     String.eqb (type t) "list_item_close" = false) /\
  (forall m t, j < m < k -> tokens !! m = Some t ->
     hasOpenOrCloseTag t "p" = false).
Proof.
  intros H. unfold examined_from in H.
  rewrite !andb_true_iff, !Nat.ltb_lt in H. destruct H as [[[Hr Hp] Hjk] Hb].
  pose proof Hr as Hr'. unfold item_reaches in Hr'.
  rewrite !andb_true_iff, !Nat.ltb_lt in Hr'. destruct Hr' as [[[Hij Hin] Hl] Hc].
  apply String.eqb_eq in Hl, Hp.
  rewrite forallb_forall in Hc, Hb.
  repeat split; try assumption.
  - intros m t Hm Ht. specialize (Hc t (between_lookup _ _ _ _ _ Hm Ht)).
    unfold not_type, is_type in Hc. now apply negb_true_iff in Hc.
  - intros m t Hm Ht. specialize (Hb t (between_lookup _ _ _ _ _ Hm Ht)).
    unfold not_boundary in Hb. now apply negb_true_iff in Hb.
Qed.

(** ** Any property the loop body keeps, the loops keep *)

Section Loops.

Variable g : Globals.
Variable classes : Classes.
Variable rnd : nat -> Z.
Variable tokens0 : list Token.

Variable P : St -> Prop.
Hypothesis P_Inv : forall st, P st -> Inv g classes rnd tokens0 st.
Hypothesis P_body : forall st k tk,
  P st -> fst st !! k = Some tk -> isInline tk = true ->
  startsWithTodoMarkdown (content tk) = true -> examined tokens0 k ->
  P (transform g classes rnd k tk st).

Lemma P_lookup (st : St) (k : nat) (t : Token) :
  P st -> fst st !! k = Some t ->
  exists t0, tokens0 !! k = Some t0 /\ type t = type t0 /\ tag t = tag t0.
Proof.
  intros HP Hk. destruct (Inv_lookup _ _ _ _ _ _ _ (P_Inv _ HP) Hk) as (t0 & H0 & Hev).
  exists t0. split; [assumption|]. apply evolved_frame in Hev. tauto.
Qed.

Lemma loop_k_keeps (n k : nat) (st : St) (i j : nat) :
  P st -> examined_from tokens0 i j k = true ->
  P (loop_k g classes rnd n k st).
Proof.
  revert k st. induction n as [|n IH]; intros k st HP Hex; cbn [loop_k]; [assumption|].
  destruct (fst st !! k) as [tk|] eqn:Hk; [|assumption].
  destruct (P_lookup _ _ _ HP Hk) as (t0 & H0 & Hty & Htg).
  destruct (hasOpenOrCloseTag tk "p") eqn:Hb; [assumption|].
  rewrite (hasOpenOrCloseTag_frame _ _ _ Hty Htg) in Hb.
  pose proof (examined_from_S _ _ _ _ _ Hex H0 Hb) as Hex'.
  destruct (isInline tk) eqn:Hin; cbn [negb]; [|now apply IH].
  destruct (startsWithTodoMarkdown (content tk)) eqn:Hm; cbn [negb]; [|now apply IH].
  apply IH; [|assumption]. apply P_body; try assumption. now exists i, j.
Qed.

Lemma loop_j_keeps (n j : nat) (st : St) (i : nat) :
  P st -> item_reaches tokens0 i j = true ->
  P (loop_j g classes rnd n j st).
Proof.
  revert j st. induction n as [|n IH]; intros j st HP Hr; cbn [loop_j]; [assumption|].
  destruct (fst st !! j) as [tj|] eqn:Hj; [|assumption].
  destruct (P_lookup _ _ _ HP Hj) as (t0 & H0 & Hty & Htg).
  destruct (String.eqb (type tj) "list_item_close") eqn:Hc; [assumption|].
  rewrite Hty in Hc.
  pose proof (item_reaches_S _ _ _ _ Hr H0 Hc) as Hr'.
  destruct (isParagraph tj) eqn:Hp; cbn [negb]; [|now apply IH].
  apply IH; [|assumption].
  apply (loop_k_keeps _ _ _ i j); [assumption|].
  apply examined_from_start; [assumption|].
  rewrite (type_at_lookup _ _ _ H0), <- Hty. now apply String.eqb_eq.
Qed.

Lemma loop_i_keeps (n i : nat) (ins : bool) (st : St) :
  P st -> ins = insideList_at tokens0 i ->
  P (loop_i g classes rnd n i ins st).
Proof.
  revert i ins st.
  induction n as [|n IH]; intros i ins st HP Hins; cbn [loop_i]; [assumption|].
  destruct (fst st !! i) as [ti|] eqn:Hi; [|assumption].
  destruct (P_lookup _ _ _ HP Hi) as (t0 & H0 & Hty & Htg).
  pose proof (insideList_at_S _ _ _ H0) as HS. unfold flag_step in HS.
  rewrite <- Hty in HS.
  destruct (String.eqb (type ti) "bullet_list_open") eqn:Ho; [now apply IH|].
  destruct (String.eqb (type ti) "bullet_list_close") eqn:Hc; [now apply IH|].
  rewrite <- Hins in HS.
  destruct ins; cbn [negb]; [|now apply IH].
  destruct (isListItem ti) eqn:Hl; cbn [negb]; [|now apply IH].
  apply IH; [|congruence]. apply (loop_j_keeps _ _ _ i); [assumption|].
  apply item_reaches_start; [congruence|].
  rewrite (type_at_lookup _ _ _ H0), <- Hty. now apply String.eqb_eq.
Qed.

Lemma rule_keeps (d : nat) :
  P (tokens0, d) -> P (rule g classes rnd tokens0 d).
Proof. intros HP. unfold rule. now apply loop_i_keeps. Qed.

End Loops.

(** ** Soundness: whatever the pass changed, it changed as [evolved] says *)

Theorem rule_Inv (g : Globals) (classes : Classes) (rnd : nat -> Z)
    (tokens : list Token) (d : nat) :
  Inv g classes rnd tokens (rule g classes rnd tokens d).
Proof.
  apply (rule_keeps g classes rnd tokens (Inv g classes rnd tokens)).
  - auto.
  - intros. now apply Inv_transform.
  - apply Inv_init.
Qed.

(** ** Liveness: an examined marker gets its checkbox *)

Section Liveness.

Variable g : Globals.
Variable classes : Classes.
Variable rnd : nat -> Z.
Variable tokens0 : list Token.

Local Notation Inv := (Inv g classes rnd tokens0).
Local Notation body := (transform g classes rnd).

Lemma body_lookup_other (st : St) (k m : nat) (tk t : Token) :
  fst st !! m = Some t -> m <> k ->
  type t <> "list_item_open" -> type t <> "bullet_list_open" ->
  fst (body k tk st) !! m = Some t.
Proof.
  intros Hm Hne Hi Hl. unfold transform.
  destruct (children tk) as [[|c0 cs]|]; try assumption.
  destruct (checkbox_content _ _ _ _ _) as [html d']. cbn [fst].
  apply propagate_lookup_other; try assumption.
  now rewrite list_lookup_insert_ne by congruence.
Qed.

Lemma body_lookup_same (st : St) (k : nat) (tk c0 : Token) (cs : list Token) :
  fst st !! k = Some tk -> children tk = Some (c0 :: cs) -> type tk = "inline" ->
  fst (body k tk st) !! k =
  Some (with_checkbox tk c0 cs
          (fst (checkbox_content g classes rnd (is_checked (content tk)) (snd st)))).
Proof.
  intros Hk Hch Hty. unfold transform. rewrite Hch.
  destruct (checkbox_content _ _ _ _ _) as [html d']. cbn [fst].
  apply propagate_lookup_other.
  - apply list_lookup_insert_eq. eapply lookup_lt_Some; eassumption.
  - cbn. rewrite Hty. discriminate.
  - cbn. rewrite Hty. discriminate.
Qed.

Variable target : nat.

Local Notation Done := (Done g classes rnd tokens0 target).

Lemma Done_Inv (st : St) : Done st -> Inv st.
Proof. now intros [? _]. Qed.

Lemma Done_body (st : St) (k : nat) (tk : Token) :
  Done st -> fst st !! k = Some tk -> isInline tk = true ->
  startsWithTodoMarkdown (content tk) = true -> examined tokens0 k ->
  Done (body k tk st).
Proof.
  intros [HI (t0 & c0 & cs & d & H0 & Hty & Hm0 & Hch & Hst)] Hk Hin Hm Hex.
  split; [now apply Inv_transform|].
  exists t0, c0, cs, d. repeat split; try assumption.
  destruct (decide (target = k)) as [->|Hne].
  - rewrite Hst in Hk. injection Hk as <-.
    cbn [with_checkbox content set_content set_children] in Hm.
    apply slice3_no_marker in Hm0. congruence.
  - apply body_lookup_other; try assumption; cbn; rewrite Hty; discriminate.
Qed.

Lemma Done_now (st : St) (tk : Token) :
  Inv st -> fst st !! target = Some tk -> isInline tk = true ->
  startsWithTodoMarkdown (content tk) = true -> examined tokens0 target ->
  (exists c0 cs, children tk = Some (c0 :: cs)) ->
  tokens0 !! target = Some tk ->
  Done (body target tk st).
Proof.
  intros HI Hk Hin Hm Hex (c0 & cs & Hch) H0.
  split; [now apply Inv_transform|].
  apply String.eqb_eq in Hin.
  exists tk, c0, cs, (snd st). repeat split; try assumption.
  now apply body_lookup_same.
Qed.

Variables (t0 c0 : Token) (cs : list Token) (i j : nat).
Hypothesis target_token : tokens0 !! target = Some t0.
Hypothesis target_inline : type t0 = "inline".
Hypothesis target_marker : startsWithTodoMarkdown (content t0) = true.
Hypothesis target_children : children t0 = Some (c0 :: cs).
Hypothesis target_examined : examined_from tokens0 i j target = true.

Lemma target_parts :
  i < j /\ j < target /\ target < length tokens0 /\
  insideList_at tokens0 i = true /\
  type_at tokens0 i = "list_item_open" /\
  type_at tokens0 j = "paragraph_open" /\
  item_reaches tokens0 i j = true /\
  (forall m t, i < m < j -> tokens0 !! m = Some t ->
     String.eqb (type t) "list_item_close" = false) /\
  (forall m t, j < m < target -> tokens0 !! m = Some t ->
     hasOpenOrCloseTag t "p" = false).
Proof.
  destruct (examined_from_parts _ _ _ _ target_examined)
    as (H1 & H2 & H3 & H4 & H5 & H6 & H7 & H8).
  repeat split; try assumption.
  eapply lookup_lt_Some, target_token.
Qed.

Lemma inline_no_boundary (t : Token) :
  type t = "inline" -> hasOpenOrCloseTag t "p" = false.
Proof. unfold hasOpenOrCloseTag. intros ->. apply andb_false_r. Qed.

Lemma loop_k_live (n k : nat) (st : St) :
  Inv st -> examined_from tokens0 i j k = true -> k <= target ->
  n + k = length tokens0 ->
  Done (loop_k g classes rnd n k st).
Proof.
  destruct target_parts as (Hij & Hjt & Htl & _ & _ & _ & _ & _ & Hnb).
  revert k st. induction n as [|n IH]; intros k st HI Hex Hk Hn; [lia|].
  cbn [loop_k].
  assert (Hjk : j < k).
  { unfold examined_from in Hex. rewrite !andb_true_iff, Nat.ltb_lt in Hex. tauto. }
  destruct (tokens0 !! k) as [u0|] eqn:Hu0;
    [|apply lookup_ge_None in Hu0; lia].
  destruct (Inv_lookup0 _ _ _ _ _ _ _ HI Hu0) as (tk & Hk' & Hev).
  rewrite Hk'.
  pose proof (evolved_frame _ _ _ _ _ _ _ Hev) as (Ety & Etg & _).
  destruct (decide (k = target)) as [->|Hne].
  - assert (u0 = t0) by congruence. subst u0.
    rewrite (hasOpenOrCloseTag_frame _ _ _ Ety Etg), (inline_no_boundary _ target_inline).
    pose proof (examined_from_S _ _ _ _ _ Hex Hu0 (inline_no_boundary _ target_inline)) as Hex'.
    assert (Hin : isInline tk = true)
      by (unfold isInline; rewrite Ety, target_inline; reflexivity).
    rewrite Hin. cbn [negb].
    assert (HD : Done (if negb (startsWithTodoMarkdown (content tk)) then st
                       else body target tk st)).
    { destruct Hev as [->|n0 H1 _ _|n0 H1 _|c1 cs1 d0 _ _ Hc1 _ ->]; try congruence.
      - rewrite target_marker. cbn [negb].
        apply Done_now; try assumption; [now exists i, j | eauto].
      - cbn [with_checkbox content set_content set_children].
        rewrite (slice3_no_marker _ target_marker). cbn [negb].
        split; [assumption|].
        exists t0, c1, cs1, d0. repeat split; assumption. }
    destruct (startsWithTodoMarkdown (content tk)); cbn [negb] in *;
      apply (loop_k_keeps g classes rnd tokens0 Done Done_Inv Done_body _ _ _ i j);
      assumption.
  - assert (Hb : hasOpenOrCloseTag u0 "p" = false) by (apply (Hnb k); [lia|assumption]).
    rewrite (hasOpenOrCloseTag_frame _ _ _ Ety Etg), Hb.
    pose proof (examined_from_S _ _ _ _ _ Hex Hu0 Hb) as Hex'.
    destruct (isInline tk) eqn:Hin; cbn [negb]; [|apply IH; try assumption; lia].
    destruct (startsWithTodoMarkdown (content tk)) eqn:Hm; cbn [negb];
      [|apply IH; try assumption; lia].
    apply IH; try assumption; try lia.
    apply Inv_transform; try assumption. now exists i, j.
Qed.

Lemma Inv_body_keeps (st : St) (k : nat) (tk : Token) :
  Inv st -> fst st !! k = Some tk -> isInline tk = true ->
  startsWithTodoMarkdown (content tk) = true -> examined tokens0 k ->
  Inv (body k tk st).
Proof. apply Inv_transform. Qed.

Lemma loop_j_live (n j0 : nat) (st : St) :
  Inv st -> item_reaches tokens0 i j0 = true -> j0 <= j ->
  n + j0 = length tokens0 ->
  Done (loop_j g classes rnd n j0 st).
Proof.
  destruct target_parts as (Hij & Hjt & Htl & _ & _ & Hpo & _ & Hnc & _).
  revert j0 st. induction n as [|n IH]; intros j0 st HI Hr Hj Hn; [lia|].
  cbn [loop_j].
  destruct (tokens0 !! j0) as [u0|] eqn:Hu0;
    [|apply lookup_ge_None in Hu0; lia].
  destruct (Inv_lookup0 _ _ _ _ _ _ _ HI Hu0) as (tj & Hj' & Hev).
  rewrite Hj'.
  pose proof (evolved_frame _ _ _ _ _ _ _ Hev) as (Ety & _).
  assert (Hc : String.eqb (type u0) "list_item_close" = false).
  { destruct (decide (j0 = j)) as [->|Hne].
    - rewrite (type_at_lookup _ _ _ Hu0) in Hpo. now rewrite Hpo.
    - assert (i < j0).
      { unfold item_reaches in Hr. rewrite !andb_true_iff, Nat.ltb_lt in Hr. tauto. }
      apply (Hnc j0); [lia|assumption]. }
  rewrite Ety, Hc.
  pose proof (item_reaches_S _ _ _ _ Hr Hu0 Hc) as Hr'.
  assert (Hst : forall u, tokens0 !! j0 = Some u -> type u = "paragraph_open" ->
                examined_from tokens0 i j0 (S j0) = true).
  { intros u Hu Hp. apply examined_from_start; [assumption|].
    now rewrite (type_at_lookup _ _ _ Hu). }
  destruct (decide (j0 = j)) as [->|Hne].
  - rewrite (type_at_lookup _ _ _ Hu0) in Hpo.
    unfold isParagraph. rewrite Ety, Hpo. cbn [String.eqb Ascii.eqb Bool.eqb negb].
    apply (loop_j_keeps g classes rnd tokens0 Done Done_Inv Done_body _ _ _ i);
      [|assumption].
    apply loop_k_live; [assumption| |lia|lia].
    now apply (Hst u0).
  - destruct (isParagraph tj) eqn:Hp; cbn [negb]; [|apply IH; try assumption; lia].
    apply IH; try assumption; try lia.
    apply (loop_k_keeps g classes rnd tokens0 Inv (fun _ H => H) Inv_body_keeps _ _ _ i j0);
      [assumption|].
    apply (Hst u0); [assumption|].
    unfold isParagraph in Hp. rewrite Ety in Hp. now apply String.eqb_eq.
Qed.

Lemma loop_i_live (n i0 : nat) (ins : bool) (st : St) :
  Inv st -> ins = insideList_at tokens0 i0 -> i0 <= i ->
  n + i0 = length tokens0 ->
  Done (loop_i g classes rnd n i0 ins st).
Proof.
  destruct target_parts as (Hij & Hjt & Htl & Hinside & Hlio & _).
  revert i0 ins st. induction n as [|n IH]; intros i0 ins st HI Hins Hi Hn; [lia|].
  cbn [loop_i].
  destruct (tokens0 !! i0) as [u0|] eqn:Hu0;
    [|apply lookup_ge_None in Hu0; lia].
  destruct (Inv_lookup0 _ _ _ _ _ _ _ HI Hu0) as (ti & Hi' & Hev).
  rewrite Hi'.
  pose proof (evolved_frame _ _ _ _ _ _ _ Hev) as (Ety & _).
  pose proof (insideList_at_S _ _ _ Hu0) as HS. unfold flag_step in HS.
  rewrite <- Ety in HS.
  assert (Hst : isListItem ti = true -> insideList_at tokens0 i0 = true ->
                item_reaches tokens0 i0 (S i0) = true).
  { intros Hl Hin. apply item_reaches_start; [assumption|].
    rewrite (type_at_lookup _ _ _ Hu0), <- Ety. now apply String.eqb_eq. }
  destruct (decide (i0 = i)) as [->|Hne].
  - rewrite (type_at_lookup _ _ _ Hu0), <- Ety in Hlio.
    rewrite Hlio in HS |- *. cbn [String.eqb Ascii.eqb Bool.eqb] in HS |- *.
    rewrite Hins, Hinside. cbn [negb].
    unfold isListItem at 1. rewrite Hlio. cbn [String.eqb Ascii.eqb Bool.eqb negb].
    apply (loop_i_keeps g classes rnd tokens0 Done Done_Inv Done_body);
      [|congruence].
    apply loop_j_live; [assumption| |lia|lia].
    apply Hst; [|assumption]. unfold isListItem. now rewrite Hlio.
  - destruct (String.eqb (type ti) "bullet_list_open") eqn:Ho;
      [apply IH; try assumption; try congruence; lia|].
    destruct (String.eqb (type ti) "bullet_list_close") eqn:Hc;
      [apply IH; try assumption; try congruence; lia|].
    rewrite <- Hins in HS.
    destruct ins; cbn [negb]; [|apply IH; try assumption; try congruence; lia].
    destruct (isListItem ti) eqn:Hl; cbn [negb]; [|apply IH; try assumption; try congruence; lia].
    apply IH; try assumption; try congruence; try lia.
    apply (loop_j_keeps g classes rnd tokens0 Inv (fun _ H => H) Inv_body_keeps _ _ _ i0);
      [assumption|].
    apply Hst; [reflexivity|congruence].
Qed.

Lemma rule_Done (d : nat) : Done (rule g classes rnd tokens0 d).
Proof.
  unfold rule. apply loop_i_live; [apply Inv_init|reflexivity|lia|lia].
Qed.

End Liveness.

Theorem rule_live (g : Globals) (classes : Classes) (rnd : nat -> Z)
    (tokens : list Token) (d k : nat) (t0 c0 : Token) (cs : list Token)
    (i j : nat) :
  tokens !! k = Some t0 -> type t0 = "inline" ->
  startsWithTodoMarkdown (content t0) = true ->
  children t0 = Some (c0 :: cs) ->
  examined_from tokens i j k = true ->
  exists d',
    fst (rule g classes rnd tokens d) !! k =
    Some (with_checkbox t0 c0 cs
            (fst (checkbox_content g classes rnd (is_checked (content t0)) d'))).
Proof.
  intros Hk Hty Hm Hch Hex.
  destruct (rule_Done g classes rnd tokens k t0 c0 cs i j Hk Hty Hm Hch Hex d)
    as [_ (u0 & c1 & cs1 & d' & Hu0 & _ & _ & Hc1 & Hst)].
  exists d'. rewrite Hst. congruence.
Qed.

(** ** After a list close the scan is outside every list *)

Lemma loop_i_beyond (g : Globals) (classes : Classes) (rnd : nat -> Z)
    (n i i' : nat) (ins : bool) (st : St) :
  fst st !! i = None -> i <= i' -> loop_i g classes rnd n i' ins st = st.
Proof.
  intros Hi Hle. destruct n as [|n]; cbn [loop_i]; [reflexivity|].
  apply lookup_ge_None in Hi.
  now rewrite (proj2 (lookup_ge_None (fst st) i')) by lia.
Qed.

Lemma loop_i_outside (g : Globals) (classes : Classes) (rnd : nat -> Z)
    (len n i : nat) (st : St) :
  (forall x, i <= x < i + len -> type_at (fst st) x <> "bullet_list_open") ->
  loop_i g classes rnd (len + n) i false st = loop_i g classes rnd n (i + len) false st.
Proof.
  revert i. induction len as [|len IH]; intros i Hno.
  - now rewrite Nat.add_0_r.
  - cbn [Nat.add loop_i].
    destruct (fst st !! i) as [ti|] eqn:Hi.
    + assert (Ho : String.eqb (type ti) "bullet_list_open" = false).
      { apply String.eqb_neq. rewrite <- (type_at_lookup _ _ _ Hi). apply Hno. lia. }
      rewrite Ho. cbn [negb].
      replace (i + S len) with (S i + len) by lia.
      destruct (String.eqb (type ti) "bullet_list_close");
        apply IH; intros x Hx; apply Hno; lia.
    + symmetry. apply (loop_i_beyond _ _ _ _ i); [assumption|lia].
Qed.

Lemma between_no_type (tokens : list Token) (ty : string) (a b x : nat) :
  forallb (not_type ty) (between tokens a b) = true -> ty <> EmptyString ->
  a < x < b -> type_at tokens x <> ty.
Proof.
  intros Hall Hne Hx. unfold type_at.
  destruct (tokens !! x) as [t|] eqn:Ht; [|congruence].
  rewrite forallb_forall in Hall.
  specialize (Hall t (between_lookup _ _ _ _ _ Hx Ht)).
  unfold not_type, is_type in Hall. apply negb_true_iff in Hall.
  now apply String.eqb_neq.
Qed.

Lemma between_shorter (tokens : list Token) (p : Token -> bool) (a b b' : nat) :
  forallb p (between tokens a b) = true -> b' <= b ->
  forallb p (between tokens a b') = true.
Proof.
  intros Hall Hle. rewrite forallb_forall in *. intros t Ht. apply Hall.
  unfold between in *. apply list_elem_of_In in Ht. apply list_elem_of_In.
  apply list_elem_of_lookup in Ht as [x Hx].
  apply lookup_take_Some in Hx as [Hx Hlt].
  apply (list_elem_of_lookup_2 _ x). now rewrite lookup_take_lt by lia.
Qed.

Lemma insideList_after_close (tokens : list Token) (c m : nat) :
  type_at tokens c = "bullet_list_close" -> c < m ->
  forallb (not_type "bullet_list_open") (between tokens c m) = true ->
  insideList_at tokens m = false.
Proof.
  intros Hc Hcm. induction m as [|m IH]; [lia|]. intros Hall.
  destruct (tokens !! m) as [tm|] eqn:Hm.
  - rewrite (insideList_at_S _ _ _ Hm). unfold flag_step.
    destruct (decide (m = c)) as [->|Hne].
    + rewrite (type_at_lookup _ _ _ Hm) in Hc. now rewrite Hc.
    + assert (Hx : type_at tokens m <> "bullet_list_open")
        by (eapply between_no_type; [eassumption|discriminate|lia]).
      rewrite (type_at_lookup _ _ _ Hm) in Hx.
      apply String.eqb_neq in Hx. rewrite Hx.
      destruct (String.eqb (type tm) "bullet_list_close"); [reflexivity|].
      apply IH; [lia|]. eapply between_shorter; [eassumption|lia].
  - destruct (decide (m = c)) as [->|Hne].
    + unfold type_at in Hc. rewrite Hm in Hc. discriminate.
    + apply lookup_ge_None in Hm. unfold insideList_at.
      rewrite take_ge by lia. rewrite <- (take_ge tokens m) at 1 by lia.
      apply IH; [lia|]. eapply between_shorter; [eassumption|lia].
Qed.

Section AfterClose.

Variable tokens : list Token.
Variables (c m : nat) (tp : Token).
Hypothesis close_item : type_at tokens c = "list_item_close".
Hypothesis close_list : type_at tokens (S c) = "bullet_list_close".
Hypothesis later : S c < m.
Hypothesis no_open :
  forallb (not_type "bullet_list_open") (between tokens (S c) m) = true.
Hypothesis paragraph : tokens !! S m = Some tp.
Hypothesis paragraph_p : hasOpenOrCloseTag tp "p" = true.

(** No item that the [i] loop hands over reaches a paragraph behind [m]:
    items before the closed list end at [c], the ones from there to [m]
    are outside every list. *)
Lemma no_item_reaches_past (i j : nat) :
  item_reaches tokens i j = true -> type_at tokens j = "paragraph_open" ->
  i <= m -> j < c.
Proof.
  intros Hr Hpo Him. unfold item_reaches in Hr.
  rewrite !andb_true_iff, Nat.ltb_lt, forallb_forall in Hr.
  destruct Hr as [[[Hij Hin] Hlio] Hnc]. apply String.eqb_eq in Hlio.
  destruct (tokens !! c) as [tc|] eqn:Hc;
    [|unfold type_at in close_item; rewrite Hc in close_item; discriminate].
  pose proof close_item as Hlic. rewrite (type_at_lookup _ _ _ Hc) in Hlic.
  destruct (decide (i < c)).
  - destruct (decide (j < c)); [assumption|].
    destruct (decide (j = c)) as [->|]; [congruence|].
    assert (Hx : c < j) by lia.
    specialize (Hnc tc (between_lookup _ _ _ _ _ (conj l Hx) Hc)).
    unfold not_type, is_type in Hnc. rewrite Hlic in Hnc. discriminate.
  - destruct (decide (i = c)) as [->|]; [congruence|].
    destruct (decide (i = S c)) as [->|]; [congruence|].
    rewrite (insideList_after_close tokens (S c) i) in Hin;
      [discriminate|assumption|lia|].
    eapply between_shorter; [eassumption|lia].
Qed.

Lemma not_examined_after_close : ~ examined tokens (S (S m)).
Proof.
  intros (i & j & Hex).
  destruct (examined_from_parts _ _ _ _ Hex)
    as (Hij & Hjt & _ & _ & Hpo & Hr & _ & Hnb).
  assert (j = S m) as ->.
  { destruct (decide (j = S m)); [assumption|].
    rewrite (Hnb (S m) tp) in paragraph_p by (assumption || lia). discriminate. }
  assert (S m < c) by (apply (no_item_reaches_past i); [assumption..|lia]).
  lia.
Qed.

Lemma tp_not_inline : type tp <> "inline".
Proof.
  pose proof paragraph_p as H. unfold hasOpenOrCloseTag in H.
  apply andb_true_iff in H as [_ H]. apply orb_true_iff in H.
  destruct H as [H|H]; apply String.eqb_eq in H; rewrite H; discriminate.
Qed.

Lemma no_nearest_after_close (k : nat) : ~ nearest_item tokens m k.
Proof.
  intros (Hmk & Hinl & (i & j & Hex) & Hno).
  destruct (examined_from_parts _ _ _ _ Hex)
    as (Hij & Hjk & _ & Hlio & Hpo & Hr & _ & Hnb).
  assert (Him : i <= m).
  { destruct (decide (i <= m)); [assumption|]. destruct (Hno i); [lia|assumption]. }
  pose proof (no_item_reaches_past i j Hr Hpo Him) as Hjc.
  assert (Hk : k <> S m).
  { intros ->. rewrite (type_at_lookup _ _ _ paragraph) in Hinl.
    now apply tp_not_inline. }
  rewrite (Hnb (S m) tp) in paragraph_p by (assumption || lia). discriminate.
Qed.

End AfterClose.

(** ** Reading the markup *)

Lemma includes_append (a p b : string) : includes (a +:+ p +:+ b) p = true.
Proof.
  unfold includes. induction a as [|c a IH]; cbn [String.append].
  - destruct (p +:+ b) as [|c s] eqn:E.
    + destruct p; [reflexivity|discriminate].
    + cbn [String.index]. now rewrite <- E, prefix_append_same.
  - cbn [String.index]. destruct (String.prefix p _); [reflexivity|].
    destruct (String.index 0 p (a +:+ p +:+ b)); [reflexivity|discriminate].
Qed.

Lemma append_assoc (a b c : string) : (a +:+ b) +:+ c = a +:+ b +:+ c.
Proof. induction a as [|x a IH]; cbn; [reflexivity|now rewrite IH]. Qed.


(** ** A word that is not in the markup *)

Lemma includes_cons (c : ascii) (s p : string) :
  includes (String c s) p = String.prefix p (String c s) || includes s p.
Proof.
  unfold includes. cbn [String.index].
  destruct (String.prefix p (String c s)); [reflexivity|].
  now destruct (String.index 0 p s).
Qed.

Lemma includes_empty (c : ascii) (p : string) :
  includes EmptyString (String c p) = false.
Proof. reflexivity. Qed.

(** A word without [x] that starts a string ends before the first [x]. *)
Lemma prefix_before_sep (x : ascii) (p a b : string) :
  no_char x p = true ->
  String.prefix p (a +:+ String x b) = String.prefix p a.
Proof.
  revert a. induction p as [|y p IH]; intros a Hno.
  - now destruct a.
  - cbn [no_char] in Hno. apply andb_true_iff in Hno as [Hy Hp].
    apply negb_true_iff, Ascii.eqb_neq in Hy.
    destruct a as [|c a]; cbn [String.append String.prefix].
    + destruct (ascii_dec y x); [contradiction|reflexivity].
    + destruct (ascii_dec y c); [now apply IH|reflexivity].
Qed.

Lemma includes_split_at (x c : ascii) (p a b : string) :
  no_char x (String c p) = true ->
  includes (a +:+ String x b) (String c p) =
  includes a (String c p) || includes b (String c p).
Proof.
  intros Hno. induction a as [|y a IH].
  - pose proof (prefix_before_sep x (String c p) EmptyString b Hno) as H.
    cbn [String.append] in *. rewrite includes_cons, includes_empty, H.
    reflexivity.
  - cbn [String.append]. rewrite !includes_cons, IH.
    change (String y (a +:+ String x b)) with (String y a +:+ String x b).
    rewrite (prefix_before_sep x _ _ _ Hno). now rewrite orb_assoc.
Qed.

Lemma includes_sep_join (x c : ascii) (p : string) (l : list string) :
  no_char x (String c p) = true ->
  includes (sep_join x l) (String c p) =
  existsb (fun s => includes s (String c p)) l.
Proof.
  intros Hno. induction l as [|a l IH]; [reflexivity|].
  destruct l as [|b l].
  - cbn. now rewrite orb_false_r.
  - cbn [sep_join existsb] in *. now rewrite includes_split_at, IH.
Qed.

(** A word is not in a string that lacks its first unit. *)
Lemma includes_without_first (c : ascii) (p s : string) :
  no_char c s = true -> includes s (String c p) = false.
Proof.
  induction s as [|y s IH]; intros Hno; [reflexivity|].
  cbn [no_char] in Hno. apply andb_true_iff in Hno as [Hy Hs].
  apply negb_true_iff, Ascii.eqb_neq in Hy.
  rewrite includes_cons, (IH Hs). cbn [String.prefix].
  destruct (ascii_dec c y); [congruence|reflexivity].
Qed.

Lemma no_char_append (x : ascii) (a b : string) :
  no_char x (a +:+ b) = no_char x a && no_char x b.
Proof.
  induction a as [|c a IH]; [reflexivity|].
  cbn [String.append no_char]. now rewrite IH, andb_assoc.
Qed.

(** A printed integer is made of digits and a sign. *)
Lemma number_to_string_no_letter (z : Z) : no_char "c" (number_to_string z) = true.
Proof.
  assert (H : forall u, no_char "c" (NilEmpty.string_of_uint u) = true)
    by (induction u; cbn; auto).
  assert (H0 : forall u, no_char "c" (NilZero.string_of_uint u) = true)
    by (intros u; destruct u; cbn; try reflexivity; apply H).
  unfold number_to_string. destruct (Z.to_int z) as [u|u]; cbn; apply H0.
Qed.

Lemma task_id_no_checked (z : Z) : includes (task_id z) "checked" = false.
Proof.
  apply includes_without_first. unfold task_id.
  rewrite no_char_append, number_to_string_no_letter. reflexivity.
Qed.

Lemma includes_segments (s p0 : string) (c : ascii) (l : list string) :
  s = sep_join quote l ->
  no_char quote (String c p0) = true ->
  includes s (String c p0) = existsb (fun u => includes u (String c p0)) l.
Proof. intros -> Hno. now apply includes_sep_join. Qed.

Ltac segments :=
  unfold input_html, label_html, id_attr_of, closeLabel;
  rewrite ?append_assoc; reflexivity.

(** The unchecked templates hold no [checked], unless a class name brings
    one. *)
Lemma checkbox_content_unchecked (g : Globals) (classes : Classes)
    (rnd : nat -> Z) (d : nat) :
  includes (checkbox classes) "checked" = false ->
  includes (label_ classes) "checked" = false ->
  includes (fst (checkbox_content g classes rnd false d)) "checked" = false.
Proof.
  intros Hc Hl. pose proof (task_id_no_checked (rnd d)) as Hid.
  unfold checkbox_content, disabledAttr.
  set (id := task_id (rnd d)) in *.
  destruct g as [dis lab aft]. cbn [disableCheckboxes useLabelWrapper useLabelAfter].
  destruct lab; [destruct aft|]; cbn [fst].
  - rewrite (includes_segments _ _ _
      [ "<input class="; checkbox classes;
        " " +:+ (if dis then " disabled " else EmptyString) +:+ " type=";
        "checkbox"; "  id="; id; "><label class="; label_ classes; " for="; id;
        "></label>" ]);
      [|destruct dis; segments|reflexivity].
    cbn [existsb]. rewrite Hc, Hl, Hid. now destruct dis.
  - rewrite (includes_segments _ _ _
      [ "<label class="; label_ classes; " for="; id; "><input class=";
        checkbox classes;
        " " +:+ (if dis then " disabled " else EmptyString) +:+ " type=";
        "checkbox"; "  id="; id; "></label>" ]);
      [|destruct dis; segments|reflexivity].
    cbn [existsb]. rewrite Hc, Hl, Hid. now destruct dis.
  - rewrite (includes_segments _ _ _
      [ "<input class="; checkbox classes;
        " " +:+ (if dis then " disabled " else EmptyString) +:+ " type=";
        "checkbox"; " >" ]);
      [|destruct dis; segments|reflexivity].
    cbn [existsb]. rewrite Hc. now destruct dis.
Qed.

(** Every template holds the opening of the input element. *)
Lemma checkbox_content_input (g : Globals) (classes : Classes)
    (rnd : nat -> Z) (checked : bool) (d : nat) :
  includes (fst (checkbox_content g classes rnd checked d)) "<input class=" = true.
Proof.
  unfold checkbox_content, input_html.
  destruct (useLabelWrapper g); [destruct (useLabelAfter g)|]; cbn [fst].
  - reflexivity.
  - unfold label_html.
    replace (_ +:+ _) with
      (("<label class=" +:+ dq +:+ label_ classes +:+ dq +:+ " for=" +:+ dq
        +:+ task_id (rnd d) +:+ dq +:+ ">") +:+ "<input class=" +:+
       (dq +:+ checkbox classes +:+ dq +:+ " " +:+ disabledAttr g +:+ " type=" +:+ dq
        +:+ "checkbox" +:+ dq +:+ " "
        +:+ (if checked then "checked=" +:+ dq +:+ dq +:+ " " else EmptyString)
        +:+ id_attr_of (task_id (rnd d)) +:+ ">" +:+ closeLabel)).
    + apply includes_append.
    + now rewrite !append_assoc.
  - reflexivity.
Qed.

(** The proviso on the class names is needed: a class name is put into the
    template as it is, and one that closes its attribute brings its own
    [checked=""] into the markup of an unchecked item. *)
Lemma injected_class_checked :
  let out := fst (rule module_init classes_injected (fun _ => 0%Z) doc_two_items 0) in
  content <$> doc_two_items !! 3 = Some "[ ] A" /\
  child_includes out 3 0 ("checked=" +:+ dq +:+ dq) = true.
Proof. split; vm_compute; reflexivity. Qed.

(** * The claims *)

(** C1, as the code has it: for an inline token that the scan examines
    (some [list_item_open] before it lies inside a bulleted list, a
    [paragraph_open] follows that token with no [list_item_close] between
    the two, and the inline token follows the [paragraph_open] with no [p]
    open or close between the two), whose content starts with ["[ ] "] and
    which has a child, the pass puts a checkbox in front of the children:
    an [html_inline] token whose markup holds an [<input] element and
    holds no [checked], as long as neither the checkbox class nor the label
    class brings one.  It removes the three units of the bracket marker,
    not the space after it, from the inline token's content and from the
    content of what was its first child. *)
Theorem C1_unchecked_marker_stripped (g : Globals) (classes : Classes)
    (rnd : nat -> Z) (tokens : list Token) (d k : nat) (t c0 : Token)
    (cs : list Token) (rest : string) :
  tokens !! k = Some t ->
  type t = "inline" ->
  content t = "[ ] " +:+ rest ->
  children t = Some (c0 :: cs) ->
  examined tokens k ->
  exists d' t' cb,
    fst (rule g classes rnd tokens d) !! k = Some t' /\
    content t' = " " +:+ rest /\
    children t' = Some (cb :: set_content c0 (slice 3 (content c0)) :: cs) /\
    cb = set_content (new_Token "html_inline" EmptyString 0)
           (fst (checkbox_content g classes rnd false d')) /\
    includes (content cb) "<input class=" = true /\
    (includes (checkbox classes) "checked" = false ->
     includes (label_ classes) "checked" = false ->
     includes (content cb) "checked" = false).
Proof.
  intros Ht Hty Hc Hch (i & j & Hex).
  assert (Hm : startsWithTodoMarkdown (content t) = true)
    by (apply startsWithTodoMarkdown_spec; exists rest; tauto).
  destruct (rule_live g classes rnd tokens d _ _ _ _ _ _ Ht Hty Hm Hch Hex) as [d' Hd'].
  destruct (is_checked_marker rest) as (E & _).
  rewrite Hc, E in Hd'.
  exists d', (with_checkbox t c0 cs (fst (checkbox_content g classes rnd false d'))),
    (set_content (new_Token "html_inline" EmptyString 0)
       (fst (checkbox_content g classes rnd false d'))).
  split; [assumption|].
  cbn [with_checkbox set_content set_children content children]. rewrite Hc.
  split; [reflexivity|]. split; [reflexivity|]. split; [reflexivity|].
  split; [apply checkbox_content_input|].
  apply checkbox_content_unchecked.
Qed.

(** C1 as stated fails: for [- [ ] A] the inline token's content after the
    pass is [" A"], and so is the content of its text child: not the text
    [A] without the four units of the prefix. *)
Lemma C1_counterexample :
  let out := fst (rule module_init defaultClasses (fun _ => 0%Z) doc_two_items 0) in
  content <$> out !! 3 = Some " A" /\
  content <$> out !! 3 <> Some (slice 4 "[ ] A") /\
  content <$> child out 3 1 = Some " A" /\
  content <$> child out 3 1 <> Some (slice 4 "[ ] A").
Proof. repeat split; (reflexivity || discriminate). Qed.

Lemma C1_witness :
  exists d' t' cb,
    fst (rule module_init defaultClasses (fun _ => 0%Z) doc_two_items 0) !! 3 = Some t' /\
    content t' = " " +:+ "A" /\
    children t' =
      Some (cb :: set_content (text "[ ] A") (slice 3 (content (text "[ ] A"))) :: []) /\
    cb = set_content (new_Token "html_inline" EmptyString 0)
           (fst (checkbox_content module_init defaultClasses (fun _ => 0%Z) false d')) /\
    includes (content cb) "<input class=" = true /\
    includes (content cb) "checked" = false.
Proof.
  assert (E : examined doc_two_items 3) by (exists 1, 2; reflexivity).
  destruct (C1_unchecked_marker_stripped module_init defaultClasses (fun _ => 0%Z)
              doc_two_items 0 3 (inline "[ ] A") (text "[ ] A") [] "A"
              eq_refl eq_refl eq_refl eq_refl E)
    as (d' & t' & cb & H1 & H2 & H3 & H4 & H5 & H6).
  exists d', t', cb.
  split; [exact H1|]. split; [exact H2|]. split; [exact H3|].
  split; [exact H4|]. split; [exact H5|].
  apply H6; reflexivity.
Defined.

(** C6, as the code has it: the [j] loop goes on after a paragraph, so
    every paragraph between the open token of an item the scan hands over
    and the first [list_item_close] after it is examined, and in it every
    inline token before the next [p] open or close.  An inline token that
    starts with a marker and has a child gets its checkbox exactly when it
    is examined so, in whichever paragraph it is; when it is not, the pass
    leaves it as it is. *)
Theorem C6_every_paragraph_examined (g : Globals) (classes : Classes)
    (rnd : nat -> Z) (tokens : list Token) (d k : nat) (t0 c0 : Token)
    (cs : list Token) :
  tokens !! k = Some t0 ->
  type t0 = "inline" ->
  startsWithTodoMarkdown (content t0) = true ->
  children t0 = Some (c0 :: cs) ->
  (examined tokens k ->
   exists d',
     fst (rule g classes rnd tokens d) !! k =
     Some (with_checkbox t0 c0 cs
             (fst (checkbox_content g classes rnd (is_checked (content t0)) d')))) /\
  (~ examined tokens k -> fst (rule g classes rnd tokens d) !! k = Some t0).
Proof.
  intros Hk Hty Hm Hch. split.
  - intros (i & j & Hex). now apply (rule_live _ _ _ _ _ _ _ _ _ i j).
  - intros Hno.
    destruct (Inv_lookup0 _ _ _ _ _ _ _ (rule_Inv g classes rnd tokens d) Hk)
      as (t & Ht & Hev).
    rewrite Ht.
    destruct Hev as [->|n H1 _ _|n H1 _|c1 cs1 d0 _ _ _ Hex _];
      [reflexivity|congruence|congruence|contradiction].
Qed.

(** C6 as stated fails: in an item of two paragraphs the marker that
    starts the second paragraph is transformed as well. *)
Lemma C6_counterexample :
  let out := fst (rule module_init defaultClasses (fun _ => 0%Z) doc_two_paragraphs 0) in
  doc_two_paragraphs !! 6 = Some (inline "[x] B") /\
  out !! 6 <> doc_two_paragraphs !! 6 /\
  type <$> child out 6 0 = Some "html_inline" /\
  content <$> out !! 6 = Some " B".
Proof. repeat split; (reflexivity || discriminate). Qed.

Lemma C6_witness :
  (examined doc_two_paragraphs 6 ->
   exists d',
     fst (rule module_init defaultClasses (fun _ => 0%Z) doc_two_paragraphs 0) !! 6 =
     Some (with_checkbox (inline "[x] B") (text "[x] B") []
             (fst (checkbox_content module_init defaultClasses (fun _ => 0%Z)
                     (is_checked (content (inline "[x] B"))) d')))) /\
  (~ examined doc_two_paragraphs 6 ->
   fst (rule module_init defaultClasses (fun _ => 0%Z) doc_two_paragraphs 0) !! 6 =
   Some (inline "[x] B")).
Proof.
  apply (C6_every_paragraph_examined module_init defaultClasses (fun _ => 0%Z)
           doc_two_paragraphs 0 6 (inline "[x] B") (text "[x] B") []);
    reflexivity.
Defined.

(** The second paragraph of that item is examined. *)
Lemma doc_two_paragraphs_examined : examined doc_two_paragraphs 6.
Proof. exists 1, 5. reflexivity. Qed.




(** C9: the pass keeps the length of the sequence and the type, tag and
    nesting of the token at every index; a token other than an inline one
    keeps its content and children; and where the children of a token
    change, the token is an inline one and the change is one new
    [html_inline] leaf in front and three units less in the content of the
    old first child. *)
Theorem C9_sequence_preserved (g : Globals) (classes : Classes)
    (rnd : nat -> Z) (tokens : list Token) (d : nat) :
  let out := fst (rule g classes rnd tokens d) in
  length out = length tokens /\
  type <$> out = type <$> tokens /\
  forall k t0 t',
    tokens !! k = Some t0 -> out !! k = Some t' ->
    tag t' = tag t0 /\ nesting t' = nesting t0 /\
    (content t' = content t0 /\ children t' = children t0
     \/ type t0 = "inline" /\
        content t' = slice 3 (content t0) /\
        attrs t' = attrs t0 /\
        exists cb c0 cs,
          children t0 = Some (c0 :: cs) /\
          children t' = Some (cb :: set_content c0 (slice 3 (content c0)) :: cs) /\
          type cb = "html_inline" /\ children cb = None).
Proof.
  cbn zeta. pose proof (rule_Inv g classes rnd tokens d) as HI.
  split; [apply HI|]. split.
  - apply list_eq. intros k. rewrite !list_lookup_fmap.
    destruct (tokens !! k) as [t0|] eqn:H0.
    + destruct (Inv_lookup0 _ _ _ _ _ _ _ HI H0) as (t & -> & Hev).
      cbn. f_equal. now apply evolved_frame in Hev.
    + destruct HI as [Hlen _]. apply lookup_ge_None in H0. rewrite <- Hlen in H0.
      apply lookup_ge_None in H0. now rewrite H0.
  - intros k t0 t' H0 Ht. destruct HI as [_ Hev]. specialize (Hev k t0 t' H0 Ht).
    pose proof (evolved_frame _ _ _ _ _ _ _ Hev) as (_ & Etg & Ens).
    split; [assumption|]. split; [assumption|].
    destruct Hev as [->|n _ -> _|n _ ->|c0 cs d' Hty _ Hch _ ->].
    + left. tauto.
    + left. destruct (joined_frame (item classes) n t0). tauto.
    + left. destruct (joined_frame (list_ classes) n t0). tauto.
    + right. repeat split; try assumption. eexists _, c0, cs.
      split; [assumption|]. repeat split.
Qed.

Lemma C9_witness :
  let out := fst (rule module_init defaultClasses (fun _ => 0%Z) doc_nested 0) in
  length out = length doc_nested /\ type <$> out = type <$> doc_nested.
Proof.
  destruct (C9_sequence_preserved module_init defaultClasses (fun _ => 0%Z)
              doc_nested 0) as (H1 & H2 & _).
  split; assumption.
Defined.

(** C10: let a [bullet_list_close] stand at [b] and let no
    [bullet_list_open] lie between it and a later [list_item_open] at [m].
    Then from [b] the [i] loop runs past [m] with [insideList] false and
    the state untouched, whatever the flag was and wherever the pass is:
    it skips the item at [m].  When the close follows a [list_item_close],
    as the close of a sublist does, and the item at [m] starts with a
    paragraph, then at the end of the pass the open token of the item and
    the inline token of that paragraph are the ones the pass started with,
    marker included. *)
Theorem C10_items_after_list_close_skipped (g : Globals) (classes : Classes)
    (rnd : nat -> Z) (tokens : list Token) (d b m : nat) :
  type_at tokens b = "bullet_list_close" ->
  b < m ->
  forallb (not_type "bullet_list_open") (between tokens b m) = true ->
  type_at tokens m = "list_item_open" ->
  (forall n ins st,
     Inv g classes rnd tokens st ->
     loop_i g classes rnd (m - b + S n) b ins st =
     loop_i g classes rnd n (S m) false st) /\
  insideList_at tokens m = false /\
  forall c tp,
    b = S c -> type_at tokens c = "list_item_close" ->
    tokens !! S m = Some tp -> hasOpenOrCloseTag tp "p" = true ->
    fst (rule g classes rnd tokens d) !! m = tokens !! m /\
    forall t,
      tokens !! S (S m) = Some t -> isInline t = true ->
      fst (rule g classes rnd tokens d) !! S (S m) = Some t.
Proof.
  intros Hblc Hcm Hno Hlio. split; [|split].
  - intros n ins st HI.
    assert (Hty : forall x, type_at (fst st) x = type_at tokens x)
      by (intros x; now apply (Inv_type_at g classes rnd)).
    replace (m - b + S n) with (S ((m - S b) + S n)) by lia.
    cbn [loop_i].
    destruct (fst st !! b) as [tc|] eqn:Hc.
    2: { unfold type_at in Hty. specialize (Hty b). rewrite Hc in Hty.
         unfold type_at in Hblc. destruct (tokens !! b); [|discriminate].
         rewrite <- Hty in Hblc. discriminate. }
    rewrite <- Hty, (type_at_lookup _ _ _ Hc) in Hblc. rewrite Hblc.
    cbn [String.eqb Ascii.eqb Bool.eqb].
    rewrite loop_i_outside.
    + replace (S b + (m - S b)) with m by lia.
      cbn [loop_i].
      destruct (fst st !! m) as [tm|] eqn:Hm.
      * rewrite <- Hty, (type_at_lookup _ _ _ Hm) in Hlio. rewrite Hlio.
        reflexivity.
      * destruct n; reflexivity || (cbn [loop_i];
          now rewrite (proj2 (lookup_ge_None (fst st) (S m)))
            by (apply lookup_ge_None in Hm; lia)).
    + intros x Hx. rewrite Hty.
      eapply between_no_type; [eassumption|discriminate|lia].
  - now apply (insideList_after_close tokens b).
  - intros c tp -> Hlic Hp Hpb. split.
    + destruct (tokens !! m) as [tm|] eqn:Hm;
        [|unfold type_at in Hlio; rewrite Hm in Hlio; discriminate].
      rewrite (type_at_lookup _ _ _ Hm) in Hlio.
      destruct (Inv_lookup0 _ _ _ _ _ _ _ (rule_Inv g classes rnd tokens d) Hm)
        as (t' & -> & Hev).
      destruct Hev as [->|n H1 -> Hnear|n H1 _|c1 cs1 d0 H1 _ _ _ _];
        [reflexivity| |congruence|congruence].
      destruct n as [|n]; [reflexivity|].
      destruct Hnear as [k Hk]; [discriminate|].
      exfalso. revert Hk.
      now apply (no_nearest_after_close tokens c m tp).
    + intros t Ht Hin.
      destruct (Inv_lookup0 _ _ _ _ _ _ _ (rule_Inv g classes rnd tokens d) Ht)
        as (t' & -> & Hev).
      apply String.eqb_eq in Hin.
      destruct Hev as [->|n H1 _ _|n H1 _|c1 cs1 d0 _ _ _ Hex _];
        [reflexivity|congruence|congruence|].
      exfalso. revert Hex.
      now apply (not_examined_after_close tokens c m tp).
Qed.

Lemma C10_witness :
  (forall n ins st,
     Inv module_init defaultClasses (fun _ => 0%Z) doc_nested st ->
     loop_i module_init defaultClasses (fun _ => 0%Z) (13 - 11 + S n) 11 ins st =
     loop_i module_init defaultClasses (fun _ => 0%Z) n 14 false st) /\
  insideList_at doc_nested 13 = false /\
  fst (rule module_init defaultClasses (fun _ => 0%Z) doc_nested 0) !! 13 =
  doc_nested !! 13 /\
  fst (rule module_init defaultClasses (fun _ => 0%Z) doc_nested 0) !! 15 =
  Some (inline "[x] B").
Proof.
  assert (Hlt : 11 < 13) by lia.
  destruct (C10_items_after_list_close_skipped module_init defaultClasses
              (fun _ => 0%Z) doc_nested 0 11 13 eq_refl Hlt eq_refl eq_refl)
    as (H1 & H2 & H3).
  destruct (H3 10 paragraph_open eq_refl eq_refl eq_refl eq_refl) as (H4 & H5).
  split; [exact H1|]. split; [exact H2|]. split; [exact H4|].
  apply H5; reflexivity.
Defined.

(** C2: the source has no compatibility mode.  An options object gives the
    same registration with and without keys outside the interface, and with
    the README's [{ enabled: true, label: true, tiptapCompatible: true }]
    the pass still puts an [<input>] in front of the text and marks the
    item and the list with classes, not with [data-type] or
    [data-checked]. *)
Theorem C2_tiptapCompatible_ignored :
  (forall e l la lc ic cc lbc keys md g,
     taskLists md (Some (mkOptions e l la lc ic cc lbc keys)) g =
     taskLists md (Some (mkOptions e l la lc ic cc lbc [])) g) /\
  let '(g, md) := use_fresh (Some options_tiptap) module_init in
  let out := render md g rnd_count doc_two_items in
  type <$> child out 3 0 = Some "html_inline" /\
  child_includes out 3 0 "<input" = true /\
  attr_at out 1 "data-type" = None /\
  attr_at out 1 "data-checked" = None /\
  attr_at out 0 "data-type" = None /\
  attr_at out 1 "class" = Some "task-list-item".
Proof. split; [reflexivity|]. vm_compute. repeat split. Qed.

(** C3: the three switches are module-level variables that every
    registration overwrites and every pass reads when it runs.  A parser
    registered with [enabled: true, label: true, labelAfter: true] emits
    its checkbox enabled, with the label behind the input; once another
    parser is registered with [{}] the first parser's pass emits it
    disabled and without label, and once one is registered with
    [enabled: true, label: true] the label is in front.  From then on the
    two parsers render alike. *)
Theorem C3_later_registration_reaches_earlier_parser :
  let '(g1, md1) := use_fresh (Some options_label_after) module_init in
  let '(g2, md2) := use_fresh (Some no_options) g1 in
  let '(g3, md3) := use_fresh (Some options_enabled) g2 in
  let first := fun g => child_content (render md1 g rnd_count doc_two_items) 3 0 in
  (flip includes "disabled" <$> first g1 = Some false /\
   flip includes "<label" <$> first g1 = Some true /\
   String.prefix "<input" <$> first g1 = Some true) /\
  (flip includes "disabled" <$> first g2 = Some true /\
   flip includes "<label" <$> first g2 = Some false) /\
  String.prefix "<label" <$> first g3 = Some true /\
  render md1 g2 rnd_count doc_two_items = render md2 g2 rnd_count doc_two_items /\
  render md1 g3 rnd_count doc_two_items = render md3 g3 rnd_count doc_two_items.
Proof. vm_compute. repeat split. Qed.

(** C4: [useLabelWrapper = !!options.label] makes an absent [label] key
    false.  After a registration with [{}] the checkbox is a bare
    [<input>], with no [<label>] around it; with no options object at all
    it is wrapped. *)
Theorem C4_absent_label_key_unwraps :
  let '(g, md) := use_fresh (Some no_options) module_init in
  let '(g', md') := use_fresh None module_init in
  useLabelWrapper g = false /\
  child_includes (render md g rnd_count doc_two_items) 3 0 "<input" = true /\
  child_includes (render md g rnd_count doc_two_items) 3 0 "<label" = false /\
  child_includes (render md' g' rnd_count doc_two_items) 3 0 "<label" = true.
Proof. vm_compute. repeat split. Qed.

(** C5: [attrJoin] is called once for each matched item, and each call
    appends: a list of two task items ends with the list class twice in
    the class attribute of its container. *)
Theorem C5_list_class_repeated :
  let '(g, md) := use_fresh None module_init in
  attr_at (render md g rnd_count doc_two_items) 0 "class" =
  Some "contains-task-list contains-task-list".
Proof. reflexivity. Qed.

(** C8: the identifier is made from a random draw.  Each label names the
    identifier of its own input, and when two draws give the same integer
    the two checkboxes of one document get the same identifier. *)
Theorem C8_equal_draws_equal_ids :
  (forall g classes rnd checked d,
     useLabelWrapper g = true ->
     let id := task_id (rnd d) in
     fst (checkbox_content g classes rnd checked d) =
     (if useLabelAfter g
      then input_html (checkbox classes) (disabledAttr g) checked (id_attr_of id)
           +:+ label_html (label_ classes) id +:+ closeLabel
      else label_html (label_ classes) id
           +:+ input_html (checkbox classes) (disabledAttr g) checked (id_attr_of id)
           +:+ closeLabel)) /\
  let '(g, md) := use_fresh None module_init in
  let out := render md g rnd_collide doc_two_items in
  child_includes out 3 0 (id_attr_of "task-item-4999001") = true /\
  child_includes out 8 0 (id_attr_of "task-item-4999001") = true.
Proof.
  split.
  - intros g classes rnd checked d H. unfold checkbox_content. rewrite H.
    destruct (useLabelAfter g); reflexivity.
  - vm_compute. split; reflexivity.
Qed.

Lemma C8_witness :
  fst (checkbox_content module_init defaultClasses rnd_collide true 1) =
  label_html (label_ defaultClasses) (task_id (rnd_collide 1))
  +:+ input_html (checkbox defaultClasses) (disabledAttr module_init) true
        (id_attr_of (task_id (rnd_collide 1)))
  +:+ closeLabel.
Proof.
  destruct C8_equal_draws_equal_ids as [H _].
  apply (H module_init defaultClasses rnd_collide true 1). reflexivity.
Defined.

(** * Further properties of the source *)

(** ** The marker test *)

(** [startsWithTodoMarkdown] accepts exactly the strings that begin with
    an opening bracket, a space or [x] or [X], a closing bracket and a
    space: a marker without the space behind it, with another letter, or
    with anything in front of it is none. *)
Theorem startsWithTodoMarkdown_iff (str : string) :
  startsWithTodoMarkdown str = true <->
  exists (c : ascii) (rest : string),
    str = String "[" (String c (String "]" (String " " rest))) /\
    (c = " " \/ c = "x" \/ c = "X")%char.
Proof.
  rewrite startsWithTodoMarkdown_spec. split.
  - intros [r [H|[H|H]]]; subst str; cbn [String.append];
      eexists _, r; split; try reflexivity; tauto.
  - intros (c & r & -> & [ -> | [ -> | -> ] ]); exists r; cbn [String.append]; tauto.
Qed.

(** ** The backward search *)

(** The search from [cur] ends at the nearest index at or before [cur]
    whose token has the type, and leaves the sequence ([-1]) only when no
    token at or before [cur] has it. *)
Theorem search_back_nearest (ty : string) (tokens : list Token) (cur : nat) :
  match search_back ty tokens cur with
  | Some c =>
      c <= cur /\ type_at tokens c = ty /\
      forall x, c < x <= cur -> type_at tokens x <> ty
  | None => forall x, x <= cur -> type_at tokens x <> ty
  end.
Proof.
  induction cur as [|cur IH]; cbn [search_back].
  - destruct (String.eqb_spec (type_at tokens 0) ty) as [E|E].
    + split; [lia|split; [assumption|]]. intros x Hx. lia.
    + intros x Hx. now replace x with 0 by lia.
  - destruct (String.eqb_spec (type_at tokens (S cur)) ty) as [E|E].
    + split; [lia|split; [assumption|]]. intros x Hx. lia.
    + destruct (search_back ty tokens cur) as [c|].
      * destruct IH as (Hle & Hty & Hno). split; [lia|split; [assumption|]].
        intros x Hx. destruct (decide (x = S cur)) as [->|]; [assumption|].
        apply Hno. lia.
      * intros x Hx. destruct (decide (x = S cur)) as [->|]; [assumption|].
        apply IH. lia.
Qed.

(** ** Tokens the pass returns as they are *)

Lemma marked_spec (t : Token) :
  marked t = true <->
  type t = "inline" /\ startsWithTodoMarkdown (content t) = true /\
  exists c0 cs, children t = Some (c0 :: cs).
Proof.
  unfold marked, isInline. rewrite !andb_true_iff, String.eqb_eq. split.
  - intros [[H1 H2] H3]. repeat split; try assumption.
    destruct (children t) as [[|c0 cs]|]; try discriminate. eauto.
  - intros (H1 & H2 & c0 & cs & H3). rewrite H3. tauto.
Qed.

(** A token that is no list item open, no bullet list open and no marked
    inline token that the scan examines comes out of the pass exactly as it
    went in, attributes included: an inline token without marker, one
    without children, one the scan does not get to, and every token of
    another type. *)
Theorem rule_leaves_token (g : Globals) (classes : Classes) (rnd : nat -> Z)
    (tokens : list Token) (d k : nat) (t0 : Token) :
  tokens !! k = Some t0 ->
  type t0 <> "list_item_open" -> type t0 <> "bullet_list_open" ->
  marked t0 = false \/ ~ examined tokens k ->
  fst (rule g classes rnd tokens d) !! k = Some t0.
Proof.
  intros Hk Hi Hl Hno.
  destruct (Inv_lookup0 _ _ _ _ _ _ _ (rule_Inv g classes rnd tokens d) Hk)
    as (t & -> & Hev).
  destruct Hev as [->|n H1 _ _|n H1 _|c0 cs d0 H1 H2 H3 Hex _];
    [reflexivity|contradiction|contradiction|].
  destruct Hno as [Hm|Hne]; [|contradiction].
  assert (marked t0 = true) by (apply marked_spec; eauto). congruence.
Qed.

Lemma rule_leaves_token_witness :
  fst (rule module_init defaultClasses rnd_count doc_nested 0) !! 15 =
  Some (inline "[x] B").
Proof.
  apply rule_leaves_token; [reflexivity|discriminate|discriminate|].
  right. apply (not_examined_after_close doc_nested 10 13 paragraph_open);
    (reflexivity || lia).
Defined.

(** ** When the pass changes nothing *)

Lemma transform_childless (g : Globals) (classes : Classes) (rnd : nat -> Z)
    (k : nat) (tk : Token) (st : St) :
  (forall c0 cs, children tk <> Some (c0 :: cs)) ->
  transform g classes rnd k tk st = st.
Proof.
  intros H. unfold transform.
  destruct (children tk) as [[|c0 cs]|]; try reflexivity.
  now destruct (H c0 cs).
Qed.

Lemma with_checkbox_differs (t c0 : Token) (cs : list Token) (html : string) :
  children t = Some (c0 :: cs) ->
  children (with_checkbox t c0 cs html) <> children t.
Proof.
  intros H. cbn. rewrite H. intros [= _ E].
  apply (f_equal (@length Token)) in E. cbn in E. lia.
Qed.

Lemma rule_stable (g : Globals) (classes : Classes) (rnd : nat -> Z)
    (tokens : list Token) (d : nat) :
  (forall k, ~ candidate tokens k) ->
  rule g classes rnd tokens d = (tokens, d).
Proof.
  intros Hno.
  apply (rule_keeps g classes rnd tokens (fun st => st = (tokens, d))).
  - intros st ->. apply Inv_init.
  - intros st k tk -> Hk Hin Hm Hex. cbn [fst] in Hk.
    apply transform_childless. intros c0 cs Hch.
    apply (Hno k). exists tk. split; [assumption|]. split; [|assumption].
    apply marked_spec. apply String.eqb_eq in Hin. eauto.
  - reflexivity.
Qed.

Lemma candidate_changed (g : Globals) (classes : Classes) (rnd : nat -> Z)
    (tokens : list Token) (d k : nat) :
  candidate tokens k ->
  changed_at tokens (fst (rule g classes rnd tokens d)) k.
Proof.
  intros (t & Hk & Hm & (i & j & Hex)).
  apply marked_spec in Hm as (Hty & Hm & c0 & cs & Hch).
  destruct (rule_live g classes rnd tokens d k t c0 cs i j Hk Hty Hm Hch Hex)
    as [d' Hd'].
  eexists t, _. split; [assumption|]. split; [exact Hd'|].
  now apply with_checkbox_differs.
Qed.

(** The pass returns the tokens it was given, and draws no number, exactly
    when the scan examines no marked inline token. *)
Theorem rule_unchanged_iff (g : Globals) (classes : Classes) (rnd : nat -> Z)
    (tokens : list Token) (d : nat) :
  rule g classes rnd tokens d = (tokens, d) <->
  forall k, ~ candidate tokens k.
Proof.
  split; [|apply rule_stable].
  intros Hrule k Hc.
  destruct (candidate_changed g classes rnd tokens d k Hc)
    as (t0 & t & H0 & Ht & Hne).
  rewrite Hrule in Ht. cbn [fst] in Ht. congruence.
Qed.

(** ** The flag [insideList] *)

(** The flag is set exactly if some [bullet_list_open] stands before [i]
    with no [bullet_list_close] between the two. *)
Lemma insideList_at_spec (tokens : list Token) (i : nat) :
  insideList_at tokens i = true <->
  exists b, b < i /\ type_at tokens b = "bullet_list_open" /\
            forallb (not_type "bullet_list_close") (between tokens b i) = true.
Proof.
  induction i as [|i IH].
  - split; [discriminate|]. intros (b & Hb & _). lia.
  - destruct (tokens !! i) as [t|] eqn:Hi.
    + rewrite (insideList_at_S _ _ _ Hi). unfold flag_step.
      destruct (String.eqb_spec (type t) "bullet_list_open") as [Eo|Eo].
      * split; [intros _|reflexivity]. exists i.
        rewrite (type_at_lookup _ _ _ Hi), between_nil. auto.
      * destruct (String.eqb_spec (type t) "bullet_list_close") as [Ec|Ec].
        -- split; [discriminate|]. intros (b & Hb & Hty & Hall).
           destruct (decide (b = i)) as [->|Hne].
           ++ rewrite (type_at_lookup _ _ _ Hi) in Hty. congruence.
           ++ rewrite (between_snoc _ _ _ t) in Hall by (lia || assumption).
              rewrite forallb_app in Hall. cbn in Hall.
              unfold not_type, is_type in Hall. rewrite Ec in Hall.
              cbn in Hall. now rewrite andb_false_r in Hall.
        -- rewrite IH. split; intros (b & Hb & Hty & Hall).
           ++ exists b. split; [lia|]. split; [assumption|].
              rewrite (between_snoc _ _ _ t) by (lia || assumption).
              rewrite forallb_app, Hall. cbn. unfold not_type, is_type.
              now apply String.eqb_neq in Ec as ->.
           ++ destruct (decide (b = i)) as [->|Hne].
              { rewrite (type_at_lookup _ _ _ Hi) in Hty. congruence. }
              exists b. split; [lia|]. split; [assumption|].
              eapply between_shorter; [eassumption|lia].
    + assert (Hlen : length tokens <= i) by now apply lookup_ge_None.
      unfold insideList_at at 1. rewrite take_ge by lia.
      rewrite <- (take_ge tokens i) at 1 by lia.
      fold (insideList_at tokens i). rewrite IH.
      split; intros (b & Hb & Hty & Hall).
      * exists b. split; [lia|]. split; [assumption|].
        unfold between in *. rewrite take_ge in Hall |- *;
          [assumption|rewrite length_drop; lia|rewrite length_drop; lia].
      * assert (b < length tokens).
        { unfold type_at in Hty. destruct (tokens !! b) eqn:E; [|discriminate].
          now apply lookup_lt_Some in E. }
        exists b. split; [lia|]. split; [assumption|].
        eapply between_shorter; [eassumption|lia].
Qed.

Lemma type_at_elem (tokens : list Token) (x : nat) (ty : string) :
  type_at tokens x = ty -> ty <> EmptyString ->
  exists t, t ∈ tokens /\ type t = ty.
Proof.
  unfold type_at. intros H Hne.
  destruct (tokens !! x) as [t|] eqn:E; [|congruence].
  exists t. split; [|assumption]. eapply list_elem_of_lookup_2, E.
Qed.

(** The pass needs a bulleted list, an item and a paragraph: a stream in
    which no token is a [bullet_list_open], or in which no token is a
    [list_item_open], or in which no token is a [paragraph_open], comes
    back as it is, with no number drawn. *)
Theorem rule_needs_list_item_paragraph (g : Globals) (classes : Classes)
    (rnd : nat -> Z) (tokens : list Token) (d : nat) (ty : string) :
  ty = "bullet_list_open" \/ ty = "list_item_open" \/ ty = "paragraph_open" ->
  Forall (fun t => type t <> ty) tokens ->
  rule g classes rnd tokens d = (tokens, d).
Proof.
  intros Hty Hall. apply rule_stable.
  intros k (t & _ & _ & (i & j & Hex)).
  destruct (examined_from_parts _ _ _ _ Hex)
    as (_ & _ & Hin & Hlio & Hpo & _).
  apply insideList_at_spec in Hin as (b & _ & Hblo & _).
  rewrite Forall_forall in Hall.
  destruct Hty as [ -> | [ -> | -> ] ].
  - destruct (type_at_elem _ _ _ Hblo) as (u & Hu & E); [discriminate|].
    now apply (Hall u).
  - destruct (type_at_elem _ _ _ Hlio) as (u & Hu & E); [discriminate|].
    now apply (Hall u).
  - destruct (type_at_elem _ _ _ Hpo) as (u & Hu & E); [discriminate|].
    now apply (Hall u).
Qed.

Lemma rule_needs_list_item_paragraph_witness :
  rule module_init defaultClasses rnd_count doc_ordered 0 = (doc_ordered, 0).
Proof.
  apply (rule_needs_list_item_paragraph _ _ _ _ _ "bullet_list_open").
  - left. reflexivity.
  - repeat constructor; discriminate.
Defined.

(** ** Which tokens get a checkbox *)

(** The pass puts a checkbox into the token at [k] exactly when that token
    is a marked inline token and the stream has, in this order before it, a
    [bullet_list_open] at [b], a [list_item_open] at [i] and a
    [paragraph_open] at [j], with no [bullet_list_close] between [b] and
    [i], no [list_item_close] between [i] and [j], and no [p] open or close
    between [j] and [k]. *)
Theorem checkbox_iff (g : Globals) (classes : Classes) (rnd : nat -> Z)
    (tokens : list Token) (d k : nat) :
  changed_at tokens (fst (rule g classes rnd tokens d)) k <->
  exists t0 b i j,
    tokens !! k = Some t0 /\ marked t0 = true /\
    b < i /\ i < j /\ j < k /\
    type_at tokens b = "bullet_list_open" /\
    forallb (not_type "bullet_list_close") (between tokens b i) = true /\
    type_at tokens i = "list_item_open" /\
    forallb (not_type "list_item_close") (between tokens i j) = true /\
    type_at tokens j = "paragraph_open" /\
    forallb not_boundary (between tokens j k) = true.
Proof.
  split.
  - intros (t0 & t & Hk & Ht & Hne).
    pose proof (rule_Inv g classes rnd tokens d) as [_ Hev].
    specialize (Hev k t0 t Hk Ht).
    destruct Hev as [->|n _ -> _|n _ ->|c0 cs d' Hty Hm Hch (i & j & Hex) _].
    + contradiction.
    + destruct (joined_frame (item classes) n t0) as (_ & _ & _ & _ & E).
      contradiction.
    + destruct (joined_frame (list_ classes) n t0) as (_ & _ & _ & _ & E).
      contradiction.
    + pose proof Hex as Hex'. unfold examined_from, item_reaches in Hex'.
      rewrite !andb_true_iff, !Nat.ltb_lt, !String.eqb_eq in Hex'.
      destruct Hex' as [[[[[[Hij Hin] Hlio] Hnc] Hpo] Hjk] Hnb].
      apply insideList_at_spec in Hin as (b & Hb & Hblo & Hnbc).
      exists t0, b, i, j. repeat split; try assumption.
      apply marked_spec. eauto.
  - intros (t0 & b & i & j & Hk & Hm & Hb & Hij & Hjk & Hblo & Hnbc & Hlio
            & Hnc & Hpo & Hnb).
    apply marked_spec in Hm as (Hty & Hm & c0 & cs & Hch).
    assert (Hex : examined_from tokens i j k = true).
    { unfold examined_from, item_reaches.
      rewrite !andb_true_iff, !Nat.ltb_lt, !String.eqb_eq.
      repeat split; try assumption. apply insideList_at_spec. eauto. }
    destruct (rule_live g classes rnd tokens d k t0 c0 cs i j Hk Hty Hm Hch Hex)
      as [d' Hd'].
    eexists t0, _. split; [assumption|]. split; [exact Hd'|].
    now apply with_checkbox_differs.
Qed.

(** ** Running the rule again *)

Lemma Inv_same_shape (g : Globals) (classes : Classes) (rnd : nat -> Z)
    (tokens : list Token) (st : St) :
  Inv g classes rnd tokens st -> Forall2 same_shape (fst st) tokens.
Proof.
  intros [Hlen Hev]. apply Forall2_same_length_lookup. split; [assumption|].
  intros x t t0 Ht H0. specialize (Hev x t0 t H0 Ht).
  apply evolved_frame in Hev. split; tauto.
Qed.

Lemma flags_same_shape (l1 l2 : list Token) (b : bool) :
  Forall2 same_shape l1 l2 ->
  fold_left flag_step l1 b = fold_left flag_step l2 b.
Proof.
  intros H. revert b. induction H as [|t1 t2 l1 l2 [Hty _] _ IH]; intros b.
  - reflexivity.
  - cbn [fold_left]. unfold flag_step at 2 4. now rewrite Hty, IH.
Qed.

Lemma forallb_same_shape (p : Token -> bool) (l1 l2 : list Token) :
  (forall t1 t2, same_shape t1 t2 -> p t1 = p t2) ->
  Forall2 same_shape l1 l2 -> forallb p l1 = forallb p l2.
Proof.
  intros Hp H. induction H as [|t1 t2 l1 l2 Hs _ IH]; [reflexivity|].
  cbn. now rewrite (Hp _ _ Hs), IH.
Qed.

Lemma type_at_same_shape (l1 l2 : list Token) (x : nat) :
  Forall2 same_shape l1 l2 -> type_at l1 x = type_at l2 x.
Proof.
  intros H. unfold type_at.
  destruct (proj1 (Forall2_lookup _ _ _) H x) as [t1 t2 [Hty _]|]; [assumption|reflexivity].
Qed.

Lemma examined_from_same_shape (l1 l2 : list Token) (i j k : nat) :
  Forall2 same_shape l1 l2 ->
  examined_from l1 i j k = examined_from l2 i j k.
Proof.
  intros H. unfold examined_from, item_reaches, insideList_at, between.
  rewrite !(type_at_same_shape l1 l2) by assumption.
  rewrite (flags_same_shape (take i l1) (take i l2)) by now apply Forall2_take.
  rewrite (forallb_same_shape (not_type "list_item_close") _
             (take (j - i - 1) (drop (S i) l2))).
  - rewrite (forallb_same_shape not_boundary _ (take (k - j - 1) (drop (S j) l2))).
    + reflexivity.
    + intros t1 t2 [Hty Htg]. unfold not_boundary.
      now rewrite (hasOpenOrCloseTag_frame _ _ _ Hty Htg).
    + now apply Forall2_take, Forall2_drop.
  - intros t1 t2 [Hty _]. unfold not_type, is_type. now rewrite Hty.
  - now apply Forall2_take, Forall2_drop.
Qed.

(** What the pass returns holds no marked inline token that a scan would
    examine. *)
Lemma rule_settled (g : Globals) (classes : Classes) (rnd : nat -> Z)
    (tokens : list Token) (d k : nat) :
  ~ candidate (fst (rule g classes rnd tokens d)) k.
Proof.
  intros (t & Ht & Hm & (i & j & Hex)).
  pose proof (rule_Inv g classes rnd tokens d) as HI.
  rewrite (examined_from_same_shape _ tokens) in Hex
    by (eapply Inv_same_shape; eassumption).
  destruct (Inv_lookup _ _ _ _ _ _ _ HI Ht) as (t0 & H0 & Hev).
  pose proof Hm as Hm'. apply marked_spec in Hm' as (Hty & Hst & c0 & cs & Hch).
  destruct Hev as [->|n H1 -> _|n H1 ->|c1 cs1 d0 _ H2 _ _ ->].
  - destruct (candidate_changed g classes rnd tokens d k) as (u0 & u & Hu0 & Hu & Hne).
    { exists t0. split; [assumption|]. split; [assumption|]. now exists i, j. }
    congruence.
  - destruct (joined_frame (item classes) n t0) as (E & _). congruence.
  - destruct (joined_frame (list_ classes) n t0) as (E & _). congruence.
  - cbn [with_checkbox content set_content set_children] in Hst.
    apply slice3_no_marker in H2. congruence.
Qed.

(** The rule finds nothing to do in its own output: run again, with the
    same or with other switches, class names and random numbers, it
    returns the tokens untouched and draws no number. *)
Theorem rule_idempotent (g g' : Globals) (classes classes' : Classes)
    (rnd rnd' : nat -> Z) (tokens : list Token) (d d' : nat) :
  rule g' classes' rnd' (fst (rule g classes rnd tokens d)) d' =
  (fst (rule g classes rnd tokens d), d').
Proof. apply rule_stable. intros k. apply rule_settled. Qed.

(** However often the plugin was registered on one parser, its rules
    together do what the rule that runs first does alone (the one
    registered last, with its class names): the others leave its output as
    it is. *)
Theorem run_rules_first_rule_only (g : Globals) (rnd : nat -> Z)
    (classes : Classes) (md : MarkdownIt) (tokens : list Token) (d : nat) :
  run_rules (classes :: md) g rnd (tokens, d) = rule g classes rnd tokens d.
Proof.
  unfold run_rules. cbn [fold_left fst snd].
  assert (Hrest : forall st : St,
            (forall k, ~ candidate (fst st) k) ->
            fold_left (fun s cls => rule g cls rnd (fst s) (snd s)) md st = st).
  { induction md as [|cls md' IH]; intros st Hno; [reflexivity|].
    cbn [fold_left]. rewrite (rule_stable g cls rnd (fst st) (snd st) Hno).
    rewrite <- surjective_pairing. now apply IH. }
  apply Hrest. intros k. apply rule_settled.
Qed.

(** ** The random draws *)

Lemma transform_draws (g : Globals) (classes : Classes) (rnd : nat -> Z)
    (k : nat) (tk : Token) (st : St) :
  snd (transform g classes rnd k tk st) =
  match children tk with
  | Some (_ :: _) => if useLabelWrapper g then S (snd st) else snd st
  | _ => snd st
  end.
Proof.
  unfold transform, checkbox_content.
  destruct (children tk) as [[|c0 cs]|]; try reflexivity.
  destruct (useLabelWrapper g); reflexivity.
Qed.

(** Without the label wrapper the pass never calls [Math.random]. *)
Theorem rule_without_label_draws_nothing (g : Globals) (classes : Classes)
    (rnd : nat -> Z) (tokens : list Token) (d : nat) :
  useLabelWrapper g = false ->
  snd (rule g classes rnd tokens d) = d.
Proof.
  intros Hl.
  apply (rule_keeps g classes rnd tokens
           (fun st => Inv g classes rnd tokens st /\ snd st = d)).
  - now intros st [H _].
  - intros st k tk [HI Hd] Hk Hin Hm Hex. split; [now apply Inv_transform|].
    rewrite transform_draws, Hl. now destruct (children tk) as [[|? ?]|].
  - split; [apply Inv_init|reflexivity].
Qed.

Lemma rule_without_label_draws_nothing_witness :
  snd (rule (mkGlobals true false false) defaultClasses rnd_count doc_two_items 7) = 7.
Proof. apply rule_without_label_draws_nothing. reflexivity. Defined.

Section Draws.

Variable g : Globals.
Variable classes : Classes.
Variable rnd : nat -> Z.
Variable tokens0 : list Token.
Variable d0 : nat.
Hypothesis with_label : useLabelWrapper g = true.

Local Notation Inv := (Inv g classes rnd tokens0).
Local Notation body := (transform g classes rnd).

Lemma evolved_changed (k : nat) (t0 t : Token) :
  evolved g classes rnd tokens0 k t0 t -> children t <> children t0 ->
  type t0 = "inline".
Proof.
  intros Hev Hne.
  destruct Hev as [->|n _ -> _|n _ ->|c0 cs d H _ _ _ _]; [contradiction| | |assumption].
  - destruct (joined_frame (item classes) n t0) as (_ & _ & _ & _ & E).
    contradiction.
  - destruct (joined_frame (list_ classes) n t0) as (_ & _ & _ & _ & E).
    contradiction.
Qed.

(** Away from [k] the body changes no token that has a checkbox. *)
Lemma body_changed_other (st : St) (k x : nat) (tk : Token) :
  Inv st -> Inv (body k tk st) -> x <> k ->
  (changed_at tokens0 (fst (body k tk st)) x <-> changed_at tokens0 (fst st) x) /\
  (changed_at tokens0 (fst st) x -> fst (body k tk st) !! x = fst st !! x).
Proof.
  intros HI HI' Hne.
  assert (Hkeep : forall t0 t, tokens0 !! x = Some t0 -> fst st !! x = Some t ->
                    type t0 = "inline" -> fst (body k tk st) !! x = Some t).
  { intros t0 t H0 Ht Hty.
    destruct HI as [_ Hev]. specialize (Hev x t0 t H0 Ht).
    apply evolved_frame in Hev as (E & _).
    apply body_lookup_other; try assumption; rewrite E, Hty; discriminate. }
  split; [split|].
  - intros (t0 & t' & H0 & Ht' & Hch).
    destruct HI' as [_ Hev']. pose proof (Hev' x t0 t' H0 Ht') as Hev.
    pose proof (evolved_changed _ _ _ Hev Hch) as Hty.
    destruct (Inv_lookup0 _ _ _ _ _ _ _ HI H0) as (t & Ht & _).
    exists t0, t. split; [assumption|]. split; [assumption|].
    rewrite (Hkeep t0 t H0 Ht Hty) in Ht'. congruence.
  - intros (t0 & t & H0 & Ht & Hch).
    destruct HI as [Hlen Hev]. pose proof (Hev x t0 t H0 Ht) as Hev0.
    pose proof (evolved_changed _ _ _ Hev0 Hch) as Hty.
    exists t0, t. split; [assumption|]. split; [|assumption].
    apply (Hkeep t0 t H0 Ht Hty).
  - intros (t0 & t & H0 & Ht & Hch).
    destruct HI as [Hlen Hev]. pose proof (Hev x t0 t H0 Ht) as Hev0.
    pose proof (evolved_changed _ _ _ Hev0 Hch) as Hty.
    rewrite Ht. apply (Hkeep t0 t H0 Ht Hty).
Qed.

Local Notation Fresh := (Fresh g classes rnd tokens0 d0).

Lemma Fresh_body (st : St) (k : nat) (tk : Token) :
  Fresh st -> fst st !! k = Some tk -> isInline tk = true ->
  startsWithTodoMarkdown (content tk) = true -> examined tokens0 k ->
  Fresh (body k tk st).
Proof.
  intros [HI (f & Hd0 & Huse & Hinj & Hsur)] Hk Hin Hm Hex.
  pose proof (Inv_transform _ _ _ _ _ _ _ HI Hk Hin Hm Hex) as HI'.
  split; [assumption|].
  destruct (children tk) as [[|c0 cs]|] eqn:Hch;
    try (exists f; unfold transform; rewrite Hch;
         exact (conj Hd0 (conj Huse (conj Hinj Hsur)))).
  (* the token at [k] is still the one of [tokens0] *)
  destruct (Inv_lookup _ _ _ _ _ _ _ HI Hk) as (t0 & H0 & Hev).
  apply String.eqb_eq in Hin.
  assert (tk = t0) as ->.
  { destruct Hev as [->|n H1 -> _|n H1 ->|c1 cs1 d1 _ H2 _ _ ->].
    - reflexivity.
    - destruct (joined_frame (item classes) n t0) as (E & _). congruence.
    - destruct (joined_frame (list_ classes) n t0) as (E & _). congruence.
    - cbn [with_checkbox content set_content set_children] in Hm.
      apply slice3_no_marker in H2. congruence. }
  assert (Hold : ~ changed_at tokens0 (fst st) k).
  { intros (u0 & u & Hu0 & Hu & Hne). congruence. }
  pose proof (body_lookup_same g classes rnd st k t0 c0 cs Hk Hch Hin) as Hnew.
  assert (Hsnd : snd (body k t0 st) = S (snd st))
    by (rewrite transform_draws, Hch, with_label; reflexivity).
  assert (Hother : forall x, x <> k ->
            (changed_at tokens0 (fst (body k t0 st)) x <-> changed_at tokens0 (fst st) x) /\
            (changed_at tokens0 (fst st) x -> fst (body k t0 st) !! x = fst st !! x))
    by (intros x Hx; now apply body_changed_other).
  exists (fun x => if decide (x = k) then snd st else f x).
  unfold drawn. rewrite Hsnd. split; [lia|]. split; [|split].
  - intros x u0 u Hu0 Hu Hne. destruct (decide (x = k)) as [->|Hx].
    + split; [lia|]. exists c0, cs. split; [congruence|].
      rewrite Hnew in Hu. congruence.
    + assert (Hc : changed_at tokens0 (fst (body k t0 st)) x) by (exists u0, u; auto).
      destruct (Hother x Hx) as [Hiff Hsame]. apply Hiff in Hc.
      rewrite (Hsame Hc) in Hu.
      destruct (Huse x u0 u Hu0 Hu Hne) as [Hr Hw]. split; [lia|assumption].
  - intros k1 k2 H1 H2.
    assert (Hlt : forall x, x <> k -> changed_at tokens0 (fst (body k t0 st)) x ->
                    f x < snd st).
    { intros x Hx Hc. destruct (Hother x Hx) as [Hiff _]. apply Hiff in Hc.
      destruct Hc as (u0 & u & Hu0 & Hu & Hne).
      now destruct (Huse x u0 u Hu0 Hu Hne) as [[_ ?] _]. }
    destruct (decide (k1 = k)) as [->|N1], (decide (k2 = k)) as [->|N2];
      intros E; try reflexivity.
    + specialize (Hlt k2 N2 H2). lia.
    + specialize (Hlt k1 N1 H1). lia.
    + apply Hinj; try assumption; [apply (Hother k1 N1)|apply (Hother k2 N2)];
        assumption.
  - intros n Hn. destruct (decide (n = snd st)) as [->|Hlt].
    + exists k. rewrite decide_True by reflexivity. split; [|reflexivity].
      eexists t0, _. split; [assumption|]. split; [exact Hnew|].
      now apply with_checkbox_differs.
    + destruct (Hsur n) as (x & Hc & Hf); [lia|].
      assert (Hx : x <> k) by (intros ->; contradiction).
      exists x. rewrite decide_False by assumption. split; [|assumption].
      now apply (Hother x Hx).
Qed.

Lemma rule_drawn :
  exists f, drawn g classes rnd tokens0 d0 (rule g classes rnd tokens0 d0) f.
Proof.
  apply (rule_keeps g classes rnd tokens0 Fresh).
  - now intros st [H _].
  - apply Fresh_body.
  - split; [apply Inv_init|]. exists (fun _ => 0).
    unfold drawn. cbn [fst snd]. split; [lia|]. split; [|split].
    + intros k t0 t H0 Ht Hne. congruence.
    + intros k1 k2 (t0 & t & H0 & Ht & Hne). congruence.
    + intros n Hn. lia.
Qed.

End Draws.

Lemma checkbox_content_labelled (g : Globals) (classes : Classes)
    (rnd : nat -> Z) (checked : bool) (d : nat) :
  useLabelWrapper g = true ->
  fst (checkbox_content g classes rnd checked d) =
  labelled_html g classes checked (task_id (rnd d)).
Proof.
  intros H. unfold checkbox_content, labelled_html. rewrite H.
  destruct (useLabelAfter g); reflexivity.
Qed.

(** With the label wrapper the pass calls [Math.random] once for each
    checkbox it emits and at no other time: the draws made during the pass
    and the tokens that got a checkbox correspond one to one, and each
    checkbox carries, in [for] and in [id], the identifier made from its
    own draw. *)
Theorem rule_draws_once_per_checkbox (g : Globals) (classes : Classes)
    (rnd : nat -> Z) (tokens : list Token) (d : nat) :
  useLabelWrapper g = true ->
  let out := fst (rule g classes rnd tokens d) in
  let d' := snd (rule g classes rnd tokens d) in
  exists f : nat -> nat,
    d <= d' /\
    (forall k t0 t',
       tokens !! k = Some t0 -> out !! k = Some t' ->
       children t' <> children t0 ->
       d <= f k < d' /\
       exists cb old,
         children t' = Some (cb :: old) /\
         content cb =
           labelled_html g classes (is_checked (content t0)) (task_id (rnd (f k)))) /\
    (forall k1 k2,
       changed_at tokens out k1 -> changed_at tokens out k2 ->
       f k1 = f k2 -> k1 = k2) /\
    (forall n, d <= n < d' -> exists k, changed_at tokens out k /\ f k = n).
Proof.
  intros Hl. cbn zeta.
  destruct (rule_drawn g classes rnd tokens d Hl) as (f & H1 & H2 & H3 & H4).
  exists f. split; [assumption|]. split; [|split; assumption].
  intros k t0 t' H0 Ht Hne.
  destruct (H2 k t0 t' H0 Ht Hne) as (Hr & c0 & cs & Hch & ->).
  split; [assumption|]. eexists _, _. split; [reflexivity|].
  cbn [content set_content]. now apply checkbox_content_labelled.
Qed.

Lemma rule_draws_once_per_checkbox_witness :
  exists f : nat -> nat,
    5 <= snd (rule module_init defaultClasses rnd_count doc_two_items 5) /\
    (forall k t0 t',
       doc_two_items !! k = Some t0 ->
       fst (rule module_init defaultClasses rnd_count doc_two_items 5) !! k = Some t' ->
       children t' <> children t0 ->
       5 <= f k < snd (rule module_init defaultClasses rnd_count doc_two_items 5) /\
       exists cb old,
         children t' = Some (cb :: old) /\
         content cb =
           labelled_html module_init defaultClasses (is_checked (content t0))
             (task_id (rnd_count (f k)))) /\
    (forall k1 k2,
       changed_at doc_two_items
         (fst (rule module_init defaultClasses rnd_count doc_two_items 5)) k1 ->
       changed_at doc_two_items
         (fst (rule module_init defaultClasses rnd_count doc_two_items 5)) k2 ->
       f k1 = f k2 -> k1 = k2) /\
    (forall n,
       5 <= n < snd (rule module_init defaultClasses rnd_count doc_two_items 5) ->
       exists k,
         changed_at doc_two_items
           (fst (rule module_init defaultClasses rnd_count doc_two_items 5)) k /\
         f k = n).
Proof.
  apply (rule_draws_once_per_checkbox module_init defaultClasses rnd_count
           doc_two_items 5).
  reflexivity.
Defined.

Lemma to_int_not_nil (z : Z) :
  Z.to_int z <> Decimal.Pos Decimal.Nil /\ Z.to_int z <> Decimal.Neg Decimal.Nil.
Proof.
  destruct z as [|p|p]; cbn; split; try discriminate;
    intros [= E]; now apply (DecimalPos.Unsigned.to_uint_nonnil p).
Qed.

Lemma number_to_string_inj (a b : Z) :
  number_to_string a = number_to_string b -> a = b.
Proof.
  unfold number_to_string. intros E.
  apply (f_equal NilZero.int_of_string) in E.
  rewrite !NilZero.isi in E by apply to_int_not_nil.
  injection E as E. now apply DecimalZ.to_int_inj.
Qed.

Lemma task_id_inj (a b : Z) : task_id a = task_id b -> a = b.
Proof.
  unfold task_id. cbn [String.append]. intros [= E].
  now apply number_to_string_inj.
Qed.

(** With the label wrapper, when the random integers drawn during the pass
    (the draws from [d] up to the count the pass ends with) are pairwise
    different, so are the identifiers of the checkboxes of the document:
    different integers never print alike. *)
Theorem distinct_draws_distinct_ids (g : Globals) (classes : Classes)
    (rnd : nat -> Z) (tokens : list Token) (d : nat) :
  useLabelWrapper g = true ->
  (forall a b,
     d <= a < snd (rule g classes rnd tokens d) ->
     d <= b < snd (rule g classes rnd tokens d) ->
     rnd a = rnd b -> a = b) ->
  let out := fst (rule g classes rnd tokens d) in
  exists id_of : nat -> string,
    (forall k t0 t',
       tokens !! k = Some t0 -> out !! k = Some t' ->
       children t' <> children t0 ->
       exists cb old,
         children t' = Some (cb :: old) /\
         content cb =
           labelled_html g classes (is_checked (content t0)) (id_of k)) /\
    (forall k1 k2,
       changed_at tokens out k1 -> changed_at tokens out k2 ->
       k1 <> k2 -> id_of k1 <> id_of k2).
Proof.
  intros Hl Hinj. cbn zeta.
  destruct (rule_drawn g classes rnd tokens d Hl) as (f & H1 & H2 & H3 & H4).
  exists (fun k => task_id (rnd (f k))). split.
  - intros k t0 t' H0 Ht Hne.
    destruct (H2 k t0 t' H0 Ht Hne) as (Hr & c0 & cs & Hch & ->).
    eexists _, _. split; [reflexivity|].
    cbn [content set_content]. now apply checkbox_content_labelled.
  - intros k1 k2 C1 C2 Hne E. apply Hne, H3; try assumption.
    apply task_id_inj in E.
    destruct C1 as (u0 & u & Hu0 & Hu & Hc1), C2 as (v0 & v & Hv0 & Hv & Hc2).
    destruct (H2 k1 u0 u Hu0 Hu Hc1) as [Ha _].
    destruct (H2 k2 v0 v Hv0 Hv Hc2) as [Hb _].
    now apply Hinj.
Qed.

Lemma distinct_draws_distinct_ids_witness :
  exists id_of : nat -> string,
    (forall k t0 t',
       doc_two_items !! k = Some t0 ->
       fst (rule module_init defaultClasses rnd_cycle doc_two_items 0) !! k = Some t' ->
       children t' <> children t0 ->
       exists cb old,
         children t' = Some (cb :: old) /\
         content cb =
           labelled_html module_init defaultClasses (is_checked (content t0))
             (id_of k)) /\
    (forall k1 k2,
       changed_at doc_two_items
         (fst (rule module_init defaultClasses rnd_cycle doc_two_items 0)) k1 ->
       changed_at doc_two_items
         (fst (rule module_init defaultClasses rnd_cycle doc_two_items 0)) k2 ->
       k1 <> k2 -> id_of k1 <> id_of k2).
Proof.
  apply (distinct_draws_distinct_ids module_init defaultClasses rnd_cycle
           doc_two_items 0).
  - reflexivity.
  - assert (Hd : snd (rule module_init defaultClasses rnd_cycle doc_two_items 0) = 2)
      by (vm_compute; reflexivity).
    rewrite Hd. intros a b Ha Hb E.
    assert (Ea : a = 0 \/ a = 1) by lia. assert (Eb : b = 0 \/ b = 1) by lia.
    destruct Ea as [ -> | -> ], Eb as [ -> | -> ];
      try reflexivity; vm_compute in E; discriminate E.
Defined.

(** ** The classes of the list item and of the list *)

Lemma search_back_ext (ty : string) (l1 l2 : list Token) (cur : nat) :
  (forall x, type_at l1 x = type_at l2 x) ->
  search_back ty l1 cur = search_back ty l2 cur.
Proof.
  intros H. induction cur as [|cur IH]; cbn [search_back]; rewrite H; [reflexivity|].
  now rewrite IH.
Qed.

Lemma search_back_none (ty : string) (tokens : list Token) (cur : nat) :
  search_back ty tokens cur = None ->
  forall x, x <= cur -> type_at tokens x <> ty.
Proof.
  induction cur as [|cur IH]; cbn [search_back].
  - destruct (String.eqb_spec (type_at tokens 0) ty); [discriminate|].
    intros _ x Hx. now replace x with 0 by lia.
  - destruct (String.eqb_spec (type_at tokens (S cur)) ty); [discriminate|].
    intros H x Hx. destruct (decide (x = S cur)) as [->|]; [assumption|].
    apply IH; [assumption|lia].
Qed.

Lemma type_at_join_class (tokens : list Token) (c x : nat) (v : string) :
  type_at (join_class tokens c v) x = type_at tokens x.
Proof.
  unfold join_class. destruct (tokens !! c) as [t|] eqn:Hc; [|reflexivity].
  unfold type_at. destruct (decide (x = c)) as [->|Hne].
  - rewrite list_lookup_insert_eq by (eapply lookup_lt_Some; eassumption).
    rewrite Hc. now destruct (attrJoin_frame t "class" v).
  - now rewrite list_lookup_insert_ne by congruence.
Qed.

Lemma join_class_lookup_same (tokens : list Token) (c : nat) (v : string)
    (t : Token) :
  tokens !! c = Some t ->
  join_class tokens c v !! c = Some (attrJoin t "class" v).
Proof.
  intros Hc. unfold join_class. rewrite Hc.
  apply list_lookup_insert_eq. eapply lookup_lt_Some; eassumption.
Qed.

Section PropagateLookup.

Variable classes : Classes.
Variables (tokens : list Token) (k c b : nat).
Hypothesis item_found : search_back "list_item_open" tokens k = Some c.
Hypothesis list_found : search_back "bullet_list_open" tokens c = Some b.

Lemma found_types :
  type_at tokens c = "list_item_open" /\ type_at tokens b = "bullet_list_open".
Proof.
  apply search_back_spec in item_found as (_ & H1 & _).
  apply search_back_spec in list_found as (_ & H2 & _). tauto.
Qed.

Lemma propagate_found :
  propagate classes tokens k =
  join_class (join_class tokens c (item classes)) b (list_ classes).
Proof.
  unfold propagate. rewrite item_found.
  rewrite (search_back_ext _ _ tokens) by (intros x; apply type_at_join_class).
  now rewrite list_found.
Qed.

Lemma propagate_lookup_item (t : Token) :
  tokens !! c = Some t ->
  propagate classes tokens k !! c = Some (attrJoin t "class" (item classes)).
Proof.
  intros Hc. rewrite propagate_found. destruct found_types as [Hi Hl].
  apply join_class_lookup_other.
  - now apply join_class_lookup_same.
  - rewrite type_at_join_class, Hl.
    destruct (attrJoin_frame t "class" (item classes)) as (-> & _).
    rewrite <- (type_at_lookup _ _ _ Hc), Hi. discriminate.
Qed.

Lemma propagate_lookup_list (t : Token) :
  tokens !! b = Some t ->
  propagate classes tokens k !! b = Some (attrJoin t "class" (list_ classes)).
Proof.
  intros Hb. rewrite propagate_found. destruct found_types as [Hi Hl].
  apply join_class_lookup_same.
  apply join_class_lookup_other; [assumption|].
  rewrite Hi, <- (type_at_lookup _ _ _ Hb), Hl. discriminate.
Qed.

End PropagateLookup.

Lemma join_class_lookup_ne (tokens : list Token) (c x : nat) (v : string) :
  x <> c -> join_class tokens c v !! x = tokens !! x.
Proof.
  intros Hne. unfold join_class. destruct (tokens !! c); [|reflexivity].
  now rewrite list_lookup_insert_ne by congruence.
Qed.

(** A list item open or list open is, after the propagation, what it was
    or what it was with its class joined once more. *)
Lemma propagate_lookup_joined (classes : Classes) (tokens : list Token)
    (k x : nat) (t : Token) :
  tokens !! x = Some t ->
  (type t = "list_item_open" ->
   propagate classes tokens k !! x = Some t \/
   propagate classes tokens k !! x = Some (attrJoin t "class" (item classes))) /\
  (type t = "bullet_list_open" ->
   propagate classes tokens k !! x = Some t \/
   propagate classes tokens k !! x = Some (attrJoin t "class" (list_ classes))).
Proof.
  intros Hx. unfold propagate.
  destruct (search_back "list_item_open" tokens k) as [c|] eqn:Hc; [|tauto].
  apply search_back_spec in Hc as (_ & Hc & _).
  set (tokens1 := join_class tokens c (item classes)).
  destruct (search_back "bullet_list_open" tokens1 c) as [b|] eqn:Hb.
  - apply search_back_spec in Hb as (_ & Hb & _).
    unfold tokens1 in Hb. rewrite type_at_join_class in Hb.
    split; intros Hty.
    + assert (x <> b).
      { intros ->. rewrite (type_at_lookup _ _ _ Hx), Hty in Hb. discriminate. }
      rewrite join_class_lookup_ne by assumption. unfold tokens1.
      destruct (decide (x = c)) as [->|Hne].
      * right. now apply join_class_lookup_same.
      * left. now rewrite join_class_lookup_ne.
    + assert (x <> c).
      { intros ->. rewrite (type_at_lookup _ _ _ Hx), Hty in Hc. discriminate. }
      destruct (decide (x = b)) as [->|Hne].
      * right. apply join_class_lookup_same. unfold tokens1.
        now rewrite join_class_lookup_ne.
      * left. rewrite join_class_lookup_ne by assumption. unfold tokens1.
        now rewrite join_class_lookup_ne.
  - split; intros Hty; unfold tokens1.
    + destruct (decide (x = c)) as [->|Hne].
      * right. now apply join_class_lookup_same.
      * left. now rewrite join_class_lookup_ne.
    + left. rewrite join_class_lookup_ne; [assumption|].
      intros ->. rewrite (type_at_lookup _ _ _ Hx), Hty in Hc. discriminate.
Qed.

Section ClassedInvariant.

Variable g : Globals.
Variable classes : Classes.
Variable rnd : nat -> Z.
Variable tokens0 : list Token.

Local Notation Inv := (Inv g classes rnd tokens0).
Local Notation body := (transform g classes rnd).
Local Notation Classed := (Classed g classes rnd tokens0).

Lemma evolved_item (k : nat) (t0 t : Token) :
  evolved g classes rnd tokens0 k t0 t -> type t0 = "list_item_open" ->
  exists n, t = joined (item classes) n t0.
Proof.
  intros [->|n _ -> _|n H1 _|c0 cs d H1 _ _ _ _] Hty; try congruence.
  - now exists 0.
  - now exists n.
Qed.

Lemma evolved_list (k : nat) (t0 t : Token) :
  evolved g classes rnd tokens0 k t0 t -> type t0 = "bullet_list_open" ->
  exists n, t = joined (list_ classes) n t0.
Proof.
  intros [->|n H1 _ _|n _ ->|c0 cs d H1 _ _ _ _] Hty; try congruence.
  - now exists 0.
  - now exists n.
Qed.

(** The body only adds to the classes of a list item and of a list. *)
Lemma classed_body (st : St) (k x : nat) (tk : Token) (v ty : string) :
  (v = item classes /\ ty = "list_item_open") \/
  (v = list_ classes /\ ty = "bullet_list_open") ->
  type_at tokens0 x = ty -> fst st !! k = Some tk -> isInline tk = true ->
  classed v tokens0 (fst st) x ->
  classed v tokens0 (fst (body k tk st)) x.
Proof.
  intros Hv Hty Hk Hin (t0 & n & H0 & Hx). unfold transform.
  destruct (children tk) as [[|c0 cs]|]; try (exists t0, n; tauto).
  destruct (checkbox_content _ _ _ _ _) as [html d']. cbn [fst].
  rewrite (type_at_lookup _ _ _ H0) in Hty.
  assert (Hne : x <> k).
  { intros ->. rewrite Hk in Hx. injection Hx as Etk.
    unfold isInline in Hin. apply String.eqb_eq in Hin.
    assert (E : type tk = type t0)
      by (rewrite Etk; apply (joined_frame v (S n) t0)).
    rewrite Hin in E.
    destruct Hv as [[_ ->]|[_ ->]]; rewrite <- E in Hty; discriminate. }
  assert (Hx' : <[k := with_checkbox tk c0 cs html]> (fst st) !! x
                = Some (joined v (S n) t0))
    by now rewrite list_lookup_insert_ne by congruence.
  destruct (propagate_lookup_joined classes _ k x _ Hx') as [Hi Hl].
  destruct (joined_frame v (S n) t0) as (E & _).
  destruct Hv as [[-> ->]|[-> ->]].
  - destruct Hi as [Hi|Hi]; [congruence| |].
    + exists t0, n. split; assumption.
    + exists t0, (S n). split; [assumption|exact Hi].
  - destruct Hl as [Hl|Hl]; [congruence| |].
    + exists t0, n. split; assumption.
    + exists t0, (S n). split; [assumption|exact Hl].
Qed.

Lemma examined_ancestors (k : nat) :
  examined tokens0 k ->
  exists c b,
    search_back "list_item_open" tokens0 k = Some c /\
    search_back "bullet_list_open" tokens0 c = Some b.
Proof.
  intros (i & j & Hex).
  destruct (examined_from_parts _ _ _ _ Hex) as (Hij & Hjk & Hin & Hlio & _).
  apply insideList_at_spec in Hin as (b0 & Hb0 & Hblo & _).
  destruct (search_back "list_item_open" tokens0 k) as [c|] eqn:Hc.
  2: { destruct (search_back_none _ _ _ Hc i); [lia|assumption]. }
  exists c.
  pose proof (search_back_spec _ _ _ _ Hc) as (_ & _ & Hno).
  assert (i <= c).
  { destruct (decide (i <= c)); [assumption|]. destruct (Hno i); [lia|assumption]. }
  destruct (search_back "bullet_list_open" tokens0 c) as [b|] eqn:Hb.
  2: { destruct (search_back_none _ _ _ Hb b0); [lia|assumption]. }
  now exists b.
Qed.

Lemma Classed_body (st : St) (k : nat) (tk : Token) :
  Classed st -> fst st !! k = Some tk -> isInline tk = true ->
  startsWithTodoMarkdown (content tk) = true -> examined tokens0 k ->
  Classed (body k tk st).
Proof.
  intros [HI Hall] Hk Hin Hm Hex.
  pose proof (Inv_transform _ _ _ _ _ _ _ HI Hk Hin Hm Hex) as HI'.
  split; [assumption|].
  destruct (children tk) as [[|c0 cs]|] eqn:Hch;
    try (unfold transform; rewrite Hch; assumption).
  intros x Hx.
  destruct (decide (x = k)) as [->|Hne].
  - destruct (examined_ancestors k Hex) as (c & b & Hc & Hb).
    exists c, b. split; [assumption|]. split; [assumption|].
    unfold transform. rewrite Hch.
    destruct (checkbox_content _ _ _ _ _) as [html d']. cbn [fst].
    set (tokens1 := <[k := with_checkbox tk c0 cs html]> (fst st)).
    apply String.eqb_eq in Hin.
    assert (Hty : forall y, type_at tokens1 y = type_at tokens0 y).
    { intros y. rewrite <- (Inv_type_at g classes rnd tokens0 st y HI).
      unfold tokens1, type_at. destruct (decide (y = k)) as [->|Hy].
      - rewrite list_lookup_insert_eq by (eapply lookup_lt_Some; eassumption).
        now rewrite Hk.
      - now rewrite list_lookup_insert_ne by congruence. }
    assert (Hkeep : forall y u0 u, tokens0 !! y = Some u0 -> fst st !! y = Some u ->
                      type u0 <> "inline" -> tokens1 !! y = Some u).
    { intros y u0 u Hu0 Hu Hne. unfold tokens1.
      rewrite list_lookup_insert_ne; [assumption|]. intros <-.
      destruct HI as [_ Hev]. specialize (Hev _ _ _ Hu0 Hu).
      apply evolved_frame in Hev as (E & _). congruence. }
    assert (Hc1 : search_back "list_item_open" tokens1 k = Some c)
      by now rewrite (search_back_ext _ tokens1 tokens0).
    assert (Hb1 : search_back "bullet_list_open" tokens1 c = Some b)
      by now rewrite (search_back_ext _ tokens1 tokens0).
    destruct (found_types tokens0 k c b Hc Hb) as [Tc Tb].
    split.
    + destruct (tokens0 !! c) as [u0|] eqn:Hu0;
        [|unfold type_at in Tc; rewrite Hu0 in Tc; discriminate].
      destruct (Inv_lookup0 _ _ _ _ _ _ _ HI Hu0) as (u & Hu & Hev).
      rewrite (type_at_lookup _ _ _ Hu0) in Tc.
      destruct (evolved_item _ _ _ Hev Tc) as [n ->].
      exists u0, n. split; [exact Hu0|].
      apply (propagate_lookup_item classes tokens1 k c b); try assumption.
      apply (Hkeep c u0); [assumption..|]. rewrite Tc. discriminate.
    + destruct (tokens0 !! b) as [u0|] eqn:Hu0;
        [|unfold type_at in Tb; rewrite Hu0 in Tb; discriminate].
      destruct (Inv_lookup0 _ _ _ _ _ _ _ HI Hu0) as (u & Hu & Hev).
      rewrite (type_at_lookup _ _ _ Hu0) in Tb.
      destruct (evolved_list _ _ _ Hev Tb) as [n ->].
      exists u0, n. split; [exact Hu0|].
      apply (propagate_lookup_list classes tokens1 k c b); try assumption.
      apply (Hkeep b u0); [assumption..|]. rewrite Tb. discriminate.
  - destruct (body_changed_other g classes rnd tokens0 st k x tk HI HI' Hne)
      as [Hiff _].
    apply Hiff in Hx. destruct (Hall x Hx) as (c & b & Hc & Hb & Cc & Cb).
    destruct (found_types tokens0 x c b Hc Hb) as [Tc Tb].
    exists c, b. split; [assumption|]. split; [assumption|]. split.
    + apply (classed_body st k c tk (item classes) "list_item_open"); auto.
    + apply (classed_body st k b tk (list_ classes) "bullet_list_open"); auto.
Qed.

Lemma rule_Classed (d : nat) : Classed (rule g classes rnd tokens0 d).
Proof.
  apply (rule_keeps g classes rnd tokens0 Classed).
  - now intros st [H _].
  - apply Classed_body.
  - split; [apply Inv_init|].
    intros k (t0 & t & H0 & Ht & Hne). cbn [fst] in Ht. congruence.
Qed.

End ClassedInvariant.

(** Every checkbox has its ancestors classed: for each token that got a
    checkbox the backward searches of the source find a [list_item_open]
    and, from there, a [bullet_list_open], and at the end of the pass each
    of the two has had its class joined at least once, the item class for
    the former and the list class for the latter. *)
Theorem checkbox_ancestors_classed (g : Globals) (classes : Classes)
    (rnd : nat -> Z) (tokens : list Token) (d k : nat) :
  let out := fst (rule g classes rnd tokens d) in
  changed_at tokens out k ->
  exists c b,
    search_back "list_item_open" tokens k = Some c /\
    search_back "bullet_list_open" tokens c = Some b /\
    (exists t0 n, tokens !! c = Some t0 /\
                  out !! c = Some (joined (item classes) (S n) t0)) /\
    (exists t0 n, tokens !! b = Some t0 /\
                  out !! b = Some (joined (list_ classes) (S n) t0)).
Proof.
  cbn zeta. intros Hk.
  destruct (rule_Classed g classes rnd tokens d) as [_ H].
  exact (H k Hk).
Qed.

Lemma checkbox_ancestors_classed_witness :
  exists c b,
    search_back "list_item_open" doc_nested 8 = Some c /\
    search_back "bullet_list_open" doc_nested c = Some b /\
    (exists t0 n, doc_nested !! c = Some t0 /\
                  fst (rule module_init defaultClasses rnd_count doc_nested 0) !! c
                  = Some (joined (item defaultClasses) (S n) t0)) /\
    (exists t0 n, doc_nested !! b = Some t0 /\
                  fst (rule module_init defaultClasses rnd_count doc_nested 0) !! b
                  = Some (joined (list_ defaultClasses) (S n) t0)).
Proof.
  apply (checkbox_ancestors_classed module_init defaultClasses rnd_count
           doc_nested 0 8).
  eexists _, _. split; [reflexivity|]. split; [reflexivity|]. discriminate.
Defined.

(** ** The markup of a checkbox *)

Lemma includes_iff (s p : string) :
  includes s p = true <-> exists a b, s = a +:+ p +:+ b.
Proof.
  split; [|intros (a & b & ->); apply includes_append].
  unfold includes. induction s as [|c s IH].
  - cbn. destruct p; [|discriminate]. intros _. now exists EmptyString, EmptyString.
  - cbn [String.index].
    destruct (String.prefix p (String c s)) eqn:Hp.
    + intros _. apply prefix_true_append in Hp as [r Hr].
      exists EmptyString, r. exact Hr.
    + destruct (String.index 0 p s); [|discriminate]. intros _.
      destruct IH as (a & b & ->); [reflexivity|].
      now exists (String c a), b.
Qed.

Lemma includes_app_l (s t p : string) :
  includes s p = true -> includes (s +:+ t) p = true.
Proof.
  rewrite !includes_iff. intros (a & b & ->). exists a, (b +:+ t).
  now rewrite !append_assoc.
Qed.

Lemma includes_app_r (s t p : string) :
  includes t p = true -> includes (s +:+ t) p = true.
Proof.
  rewrite !includes_iff. intros (a & b & ->). exists (s +:+ a), b.
  now rewrite !append_assoc.
Qed.

Lemma includes_prefix (s p : string) :
  String.prefix p s = true -> includes s p = true.
Proof.
  intros H. apply prefix_true_append in H as [r ->].
  apply (includes_append EmptyString).
Qed.

Lemma prefix_app_l (s t p : string) :
  String.prefix p s = true -> String.prefix p (s +:+ t) = true.
Proof.
  rewrite !prefix_true_append. intros [r ->]. exists (r +:+ t).
  now rewrite append_assoc.
Qed.

Lemma input_html_markup (cls dis : string) (checked : bool) (ida : string) :
  String.prefix ("<input " +:+ class_attr cls) (input_html cls dis checked ida) = true /\
  includes (input_html cls dis checked ida) type_checkbox = true /\
  includes (input_html cls dis checked ida) dis = true /\
  includes (input_html cls dis checked ida) ida = true.
Proof.
  unfold input_html, class_attr, type_checkbox.
  set (chk := if checked then "checked=" +:+ dq +:+ dq +:+ " " else EmptyString).
  repeat split.
  - apply prefix_true_append.
    exists (" " +:+ dis +:+ " type=" +:+ dq +:+ "checkbox" +:+ dq +:+ " "
            +:+ chk +:+ ida +:+ ">").
    now rewrite !append_assoc.
  - apply includes_iff.
    exists ("<input class=" +:+ dq +:+ cls +:+ dq +:+ " " +:+ dis),
           (" " +:+ chk +:+ ida +:+ ">").
    now rewrite !append_assoc.
  - apply includes_iff.
    exists ("<input class=" +:+ dq +:+ cls +:+ dq +:+ " "),
           (" type=" +:+ dq +:+ "checkbox" +:+ dq +:+ " " +:+ chk +:+ ida +:+ ">").
    now rewrite !append_assoc.
  - apply includes_iff.
    exists ("<input class=" +:+ dq +:+ cls +:+ dq +:+ " " +:+ dis +:+ " type="
            +:+ dq +:+ "checkbox" +:+ dq +:+ " " +:+ chk), ">".
    now rewrite !append_assoc.
Qed.

Lemma label_html_markup (cls id : string) :
  String.prefix ("<label " +:+ class_attr cls +:+ " for=" +:+ dq +:+ id +:+ dq)
    (label_html cls id) = true.
Proof.
  unfold label_html, class_attr. apply prefix_true_append. exists ">".
  now rewrite !append_assoc.
Qed.

Lemma prefix_shorter (p q s : string) :
  String.prefix (p +:+ q) s = true -> String.prefix p s = true.
Proof.
  rewrite !prefix_true_append. intros [r ->]. exists (q +:+ r).
  now rewrite append_assoc.
Qed.

(** What is in [checkbox.content], by the switches. *)
Lemma checkbox_content_markup (g : Globals) (classes : Classes)
    (rnd : nat -> Z) (checked : bool) (d : nat) :
  let html := fst (checkbox_content g classes rnd checked d) in
  includes html ("<input " +:+ class_attr (checkbox classes)) = true /\
  includes html type_checkbox = true /\
  (disableCheckboxes g = true -> includes html " disabled " = true) /\
  (useLabelWrapper g = true ->
   includes html ("<label " +:+ class_attr (label_ classes) +:+ " for=" +:+ dq
                  +:+ task_id (rnd d) +:+ dq) = true /\
   includes html (id_attr_of (task_id (rnd d))) = true /\
   includes html closeLabel = true /\
   String.prefix (if useLabelAfter g then "<input " else "<label ") html = true) /\
  (useLabelWrapper g = false -> String.prefix "<input " html = true).
Proof.
  cbn zeta. unfold checkbox_content.
  set (id := task_id (rnd d)).
  destruct (input_html_markup (checkbox classes) (disabledAttr g) checked (id_attr_of id))
    as (I1 & I2 & I3 & I4).
  destruct (input_html_markup (checkbox classes) (disabledAttr g) checked EmptyString)
    as (J1 & J2 & J3 & _).
  pose proof (label_html_markup (label_ classes) id) as L1.
  assert (Hdis : disableCheckboxes g = true -> disabledAttr g = " disabled ")
    by (unfold disabledAttr; now intros ->).
  assert (Hclose : forall s, includes (s +:+ closeLabel) closeLabel = true).
  { intros s. apply includes_iff. now exists s, EmptyString. }
  destruct (useLabelWrapper g); [destruct (useLabelAfter g)|]; cbn [fst].
  - split; [apply includes_app_l; now apply includes_prefix|].
    split; [now apply includes_app_l|].
    split; [intros H; rewrite <- (Hdis H); now apply includes_app_l|].
    split; [|discriminate]. intros _.
    split; [apply includes_app_r, includes_app_l; now apply includes_prefix|].
    split; [now apply includes_app_l|].
    split; [apply includes_app_r, Hclose|].
    apply prefix_app_l. now apply (prefix_shorter _ _ _ I1).
  - split; [apply includes_app_r, includes_app_l; now apply includes_prefix|].
    split; [now apply includes_app_r, includes_app_l|].
    split; [intros H; rewrite <- (Hdis H); now apply includes_app_r, includes_app_l|].
    split; [|discriminate]. intros _.
    split; [apply includes_app_l; now apply includes_prefix|].
    split; [now apply includes_app_r, includes_app_l|].
    split; [apply includes_app_r, Hclose|].
    apply prefix_app_l. now apply (prefix_shorter _ _ _ L1).
  - split; [now apply includes_prefix|].
    split; [assumption|].
    split; [intros H; now rewrite <- (Hdis H)|].
    split; [discriminate|]. intros _.
    now apply (prefix_shorter _ _ _ J1).
Qed.

(** Every checkbox the pass emits is a fresh [html_inline] leaf whose
    content holds an [<input] with the checkbox class and
    [type="checkbox"]; it holds [ disabled ] when [disableCheckboxes] is
    set; with the label wrapper it holds a [<label] with the label class
    whose [for] is the [id] of the input, and the closing tag, and starts
    with the label, or with the input when [useLabelAfter] is set; without
    the wrapper it starts with the input. *)
Theorem checkbox_markup (g : Globals) (classes : Classes) (rnd : nat -> Z)
    (tokens : list Token) (d k : nat) (t0 t' : Token) :
  tokens !! k = Some t0 ->
  fst (rule g classes rnd tokens d) !! k = Some t' ->
  children t' <> children t0 ->
  exists cb old,
    children t' = Some (cb :: old) /\
    cb = set_content (new_Token "html_inline" EmptyString 0) (content cb) /\
    includes (content cb) ("<input " +:+ class_attr (checkbox classes)) = true /\
    includes (content cb) type_checkbox = true /\
    (disableCheckboxes g = true -> includes (content cb) " disabled " = true) /\
    (useLabelWrapper g = true ->
     exists id,
       includes (content cb)
         ("<label " +:+ class_attr (label_ classes) +:+ " for=" +:+ dq +:+ id +:+ dq)
       = true /\
       includes (content cb) (id_attr_of id) = true /\
       includes (content cb) closeLabel = true /\
       String.prefix (if useLabelAfter g then "<input " else "<label ") (content cb)
       = true) /\
    (useLabelWrapper g = false -> String.prefix "<input " (content cb) = true).
Proof.
  intros Hk Ht Hne.
  pose proof (rule_Inv g classes rnd tokens d) as [_ Hev].
  specialize (Hev k t0 t' Hk Ht).
  destruct Hev as [->|n _ -> _|n _ ->|c0 cs d' _ _ _ _ ->].
  - contradiction.
  - destruct (joined_frame (item classes) n t0) as (_ & _ & _ & _ & E). contradiction.
  - destruct (joined_frame (list_ classes) n t0) as (_ & _ & _ & _ & E). contradiction.
  - destruct (checkbox_content_markup g classes rnd (is_checked (content t0)) d')
      as (H1 & H2 & H3 & H4 & H5).
    eexists _, _. split; [reflexivity|]. cbn [content set_content].
    split; [reflexivity|]. split; [assumption|]. split; [assumption|].
    split; [assumption|]. split; [|assumption].
    intros Hl. exists (task_id (rnd d')). now apply H4.
Qed.

Lemma checkbox_markup_witness :
  exists cb old,
    children (with_checkbox (inline "[ ] A") (text "[ ] A") []
                (fst (checkbox_content module_init defaultClasses rnd_count false 0)))
    = Some (cb :: old) /\
    cb = set_content (new_Token "html_inline" EmptyString 0) (content cb) /\
    includes (content cb) ("<input " +:+ class_attr (checkbox defaultClasses)) = true /\
    includes (content cb) type_checkbox = true /\
    (disableCheckboxes module_init = true ->
     includes (content cb) " disabled " = true) /\
    (useLabelWrapper module_init = true ->
     exists id,
       includes (content cb)
         ("<label " +:+ class_attr (label_ defaultClasses) +:+ " for=" +:+ dq +:+ id
          +:+ dq) = true /\
       includes (content cb) (id_attr_of id) = true /\
       includes (content cb) closeLabel = true /\
       String.prefix (if useLabelAfter module_init then "<input " else "<label ")
         (content cb) = true) /\
    (useLabelWrapper module_init = false ->
     String.prefix "<input " (content cb) = true).
Proof.
  apply (checkbox_markup module_init defaultClasses rnd_count doc_two_items 0 3
           (inline "[ ] A")).
  - reflexivity.
  - reflexivity.
  - discriminate.
Defined.

(** ** The properties at work *)

Lemma startsWithTodoMarkdown_iff_witness :
  startsWithTodoMarkdown "[X] done" = true.
Proof.
  apply startsWithTodoMarkdown_iff. exists "X"%char, "done".
  split; [reflexivity|]. right. right. reflexivity.
Defined.

Lemma rule_unchanged_iff_witness :
  rule module_init defaultClasses rnd_count doc_ordered 0 = (doc_ordered, 0).
Proof.
  apply rule_unchanged_iff. intros k (t & _ & _ & i & j & Hex).
  destruct (examined_from_parts _ _ _ _ Hex) as (_ & _ & Hin & _).
  apply insideList_at_spec in Hin as (b & _ & Hb & _).
  do 7 (destruct b as [|b]; [discriminate|]). discriminate.
Defined.

Lemma checkbox_iff_witness :
  changed_at doc_nested
    (fst (rule module_init defaultClasses rnd_count doc_nested 0)) 8.
Proof.
  apply checkbox_iff. exists (inline "[ ] C"), 0, 1, 7.
  repeat split; reflexivity || lia.
Defined.
